(** * Clinic lookup client: the API client, the App handlers and the camera

    A shallow embedding of [api.js] (the API client) and of [App.jsx]
    (the [App] component's event handlers and the [CameraCapture]
    component), followed by the properties of the specification that
    are settled on it.

    Conventions of the model.
    - A JavaScript string is the list of its UTF-16 code units.
    - A value received from the server is a [JsVal]; nothing is checked
      against a schema, as in the source.
    - What the browser and the server decide (the outcome of [fetch], of
      [res.json()], of [getUserMedia], of [canvas.toBlob]) is an input
      of the function that consumes it.
    - An event handler is a computation in the monad [M]: it emits the
      calls it makes in order (state setters, [fetch], [alert]) and ends
      normally or by a thrown error.  The handler reads the state of the
      render it was created in; the setters it calls are applied to the
      state afterwards, in order ([run]).
    - [console.error] is debugging output and is left out. *)

From Stdlib Require Import List String Ascii NArith ZArith QArith Bool.
Import ListNotations.
Local Open Scope N_scope.

(** ** JavaScript strings *)

Definition jsstring := list N.

(** A source literal (ASCII) as a JavaScript string. *)
Definition lit (s : string) : jsstring :=
  map N_of_ascii (list_ascii_of_string s).

Fixpoint jsstring_eqb (a b : jsstring) : bool :=
  match a, b with
  | [], [] => true
  | x :: a', y :: b' => (x =? y) && jsstring_eqb a' b'
  | _, _ => false
  end.

(** ECMAScript [WhiteSpace] and [LineTerminator] code points, the
    characters that [String.prototype.trim] strips. *)
Definition isWhiteSpace (c : N) : bool :=
  (c =? 9) || (c =? 10) || (c =? 11) || (c =? 12) || (c =? 13)
  || (c =? 32) || (c =? 160) || (c =? 5760)
  || ((8192 <=? c) && (c <=? 8202))
  || (c =? 8232) || (c =? 8233) || (c =? 8239) || (c =? 8287)
  || (c =? 12288) || (c =? 65279).

Fixpoint trimStart (s : jsstring) : jsstring :=
  match s with
  | [] => []
  | c :: r => if isWhiteSpace c then trimStart r else s
  end.

Definition trimEnd (s : jsstring) : jsstring := rev (trimStart (rev s)).

Definition trim (s : jsstring) : jsstring := trimEnd (trimStart s).

(** Truthiness of a string: non-empty. *)
Definition truthy_str (s : jsstring) : bool :=
  match s with [] => false | _ => true end.

(** ** JavaScript values *)

(** The values of JSON and [undefined].  Numbers are kept as integers:
    the handlers only test a number against zero. *)
#[warnings="-register-all"]
Inductive JsVal : Type :=
| JUndefined
| JNull
| JBool (b : bool)
| JNum (n : Z)
| JStr (s : jsstring)
| JArr (items : list JsVal)
| JObj (fields : list (jsstring * JsVal)).

Definition truthy (v : JsVal) : bool :=
  match v with
  | JUndefined | JNull => false
  | JBool b => b
  | JNum n => negb (n =? 0)%Z
  | JStr s => truthy_str s
  | JArr _ | JObj _ => true
  end.

Fixpoint lookup_field (k : jsstring) (fs : list (jsstring * JsVal)) : JsVal :=
  match fs with
  | [] => JUndefined
  | (k', v) :: r => if jsstring_eqb k k' then v else lookup_field k r
  end.

(** ** Errors and the handler monad *)

Inductive ErrorKind := PlainError | TypeError | SyntaxError.

Record JsError := mkError { err_kind : ErrorKind; err_message : jsstring }.

Definition Result (A : Type) : Type := (JsError + A)%type.

(** ** Files, canvases and HTTP requests *)

(** The [<video>] element: the native size of the stream it shows and
    the frame currently displayed. *)
Record Video := mkVideo { videoWidth : N; videoHeight : N; currentFrame : nat }.

(** [drawImage(video, dx, dy, dw, dh)] as recorded on the canvas. *)
Record Drawn := mkDrawn { drawn_frame : nat; dx : N; dy : N; dw : N; dh : N }.

Record Canvas := mkCanvas { canvas_width : N; canvas_height : N; canvas_drawn : list Drawn }.

(** A blob is either the encoding of a canvas, with the MIME type and
    quality the encoder was given, or bytes read from disk. *)
Inductive Blob :=
| CanvasBlob (c : Canvas) (type : jsstring) (quality : Q)
| DiskBlob (bytes : list N).

Record File := mkFile { file_parts : list Blob; file_name : jsstring; file_type : jsstring }.

Inductive Method := GET | POST.

Inductive Resource :=
| RSummary | REncounters | RMedications | RAllergies | RVitalsLabs | RPhoto.

(** The URL under [API_BASE], kept structured: the query parameters are
    the pairs given to [URLSearchParams], the patient identifier is the
    value interpolated into the template. *)
Inductive Url :=
| SearchUrl (params : list (jsstring * jsstring))
| PatientUrl (patientId : JsVal) (r : Resource).

Inductive Body :=
| NoBody
| JsonBody (payload : JsVal)
| FormBody (fields : list (jsstring * File)).

Record Request := mkRequest {
  req_method : Method;
  req_url : Url;
  req_headers : list (jsstring * jsstring);
  req_body : Body }.

(** A response: its status and what [res.json()] gives, the parsed body
    or the message of the [SyntaxError] it rejects with. *)
Record Response := mkResponse { status : N; body : (jsstring + JsVal)%type }.

(** [res.ok]: the status is in the range 200-299. *)
Definition ok (res : Response) : bool := (200 <=? status res) && (status res <=? 299).

(** What [fetch] does with a request: it rejects with a [TypeError] when
    the network request fails, and resolves with the response otherwise,
    whatever its status. *)
Inductive FetchOutcome :=
| NetworkFailure (msg : jsstring)
| Responded (res : Response).

(** ** State of the [App] component *)

Record AuthState := mkAuth {
  loginRole : jsstring;
  staffToken : option jsstring;
  staffRole : jsstring }.

Record PatientState := mkPatient {
  name : jsstring;
  dob : jsstring;
  patients : JsVal;
  selectedPatient : JsVal;
  summary : JsVal;
  encounters : JsVal;
  medications : JsVal;
  allergies : JsVal;
  vitalsLabs : JsVal;
  loading : bool;
  error : jsstring;
  activeTab : jsstring }.

Record EncounterForm := mkForm {
  newEncounterType : jsstring;
  newEncounterComplaint : jsstring;
  newEncounterDoctor : jsstring }.

Record PhotoState := mkPhoto {
  photoFile : option File;
  uploadingPhoto : bool;
  showCamera : bool }.

Record AppState := mkApp {
  auth : AuthState;
  pat : PatientState;
  form : EncounterForm;
  photo : PhotoState }.

(** The initial values given to [useState]. *)
Definition initialState : AppState :=
  {| auth := mkAuth (lit "Field doctor") None [];
     pat := mkPatient [] [] (JArr []) JNull JNull (JArr []) (JArr []) (JArr [])
              (JArr []) false [] (lit "summary");
     form := mkForm (lit "A&E") [] [];
     photo := mkPhoto None false false |}.

(** The state setters returned by [useState], one constructor each. *)
Inductive Setter :=
| setLoginRole (v : jsstring)
| setStaffToken (v : option jsstring)
| setStaffRole (v : jsstring)
| setName (v : jsstring)
| setDob (v : jsstring)
| setPatients (v : JsVal)
| setSelectedPatient (v : JsVal)
| setSummary (v : JsVal)
| setEncounters (v : JsVal)
| setMedications (v : JsVal)
| setAllergies (v : JsVal)
| setVitalsLabs (v : JsVal)
| setLoading (v : bool)
| setError (v : jsstring)
| setActiveTab (v : jsstring)
| setNewEncounterType (v : jsstring)
| setNewEncounterComplaint (v : jsstring)
| setNewEncounterDoctor (v : jsstring)
| setPhotoFile (v : option File)
| setUploadingPhoto (v : bool)
| setShowCamera (v : bool).

Definition apply_auth (u : Setter) (a : AuthState) : AuthState :=
  match u with
  | setLoginRole v => mkAuth v (staffToken a) (staffRole a)
  | setStaffToken v => mkAuth (loginRole a) v (staffRole a)
  | setStaffRole v => mkAuth (loginRole a) (staffToken a) v
  | _ => a
  end.

Definition apply_pat (u : Setter) (p : PatientState) : PatientState :=
  match u with
  | setName v =>
      mkPatient v (dob p) (patients p) (selectedPatient p) (summary p) (encounters p)
        (medications p) (allergies p) (vitalsLabs p) (loading p) (error p) (activeTab p)
  | setDob v =>
      mkPatient (name p) v (patients p) (selectedPatient p) (summary p) (encounters p)
        (medications p) (allergies p) (vitalsLabs p) (loading p) (error p) (activeTab p)
  | setPatients v =>
      mkPatient (name p) (dob p) v (selectedPatient p) (summary p) (encounters p)
        (medications p) (allergies p) (vitalsLabs p) (loading p) (error p) (activeTab p)
  | setSelectedPatient v =>
      mkPatient (name p) (dob p) (patients p) v (summary p) (encounters p)
        (medications p) (allergies p) (vitalsLabs p) (loading p) (error p) (activeTab p)
  | setSummary v =>
      mkPatient (name p) (dob p) (patients p) (selectedPatient p) v (encounters p)
        (medications p) (allergies p) (vitalsLabs p) (loading p) (error p) (activeTab p)
  | setEncounters v =>
      mkPatient (name p) (dob p) (patients p) (selectedPatient p) (summary p) v
        (medications p) (allergies p) (vitalsLabs p) (loading p) (error p) (activeTab p)
  | setMedications v =>
      mkPatient (name p) (dob p) (patients p) (selectedPatient p) (summary p) (encounters p)
        v (allergies p) (vitalsLabs p) (loading p) (error p) (activeTab p)
  | setAllergies v =>
      mkPatient (name p) (dob p) (patients p) (selectedPatient p) (summary p) (encounters p)
        (medications p) v (vitalsLabs p) (loading p) (error p) (activeTab p)
  | setVitalsLabs v =>
      mkPatient (name p) (dob p) (patients p) (selectedPatient p) (summary p) (encounters p)
        (medications p) (allergies p) v (loading p) (error p) (activeTab p)
  | setLoading v =>
      mkPatient (name p) (dob p) (patients p) (selectedPatient p) (summary p) (encounters p)
        (medications p) (allergies p) (vitalsLabs p) v (error p) (activeTab p)
  | setError v =>
      mkPatient (name p) (dob p) (patients p) (selectedPatient p) (summary p) (encounters p)
        (medications p) (allergies p) (vitalsLabs p) (loading p) v (activeTab p)
  | setActiveTab v =>
      mkPatient (name p) (dob p) (patients p) (selectedPatient p) (summary p) (encounters p)
        (medications p) (allergies p) (vitalsLabs p) (loading p) (error p) v
  | _ => p
  end.

Definition apply_form (u : Setter) (f : EncounterForm) : EncounterForm :=
  match u with
  | setNewEncounterType v => mkForm v (newEncounterComplaint f) (newEncounterDoctor f)
  | setNewEncounterComplaint v => mkForm (newEncounterType f) v (newEncounterDoctor f)
  | setNewEncounterDoctor v => mkForm (newEncounterType f) (newEncounterComplaint f) v
  | _ => f
  end.

Definition apply_photo (u : Setter) (p : PhotoState) : PhotoState :=
  match u with
  | setPhotoFile v => mkPhoto v (uploadingPhoto p) (showCamera p)
  | setUploadingPhoto v => mkPhoto (photoFile p) v (showCamera p)
  | setShowCamera v => mkPhoto (photoFile p) (uploadingPhoto p) v
  | _ => p
  end.

Definition apply_setter (st : AppState) (u : Setter) : AppState :=
  {| auth := apply_auth u (auth st);
     pat := apply_pat u (pat st);
     form := apply_form u (form st);
     photo := apply_photo u (photo st) |}.

(** ** Events and the handler monad *)

Inductive Event :=
| Call (u : Setter)          (* a state setter is called *)
| Fetch (r : Request)        (* [fetch] is called: a network request is issued *)
| Alert (msg : jsstring)     (* [alert(msg)] *)
| PreventDefault.            (* [e.preventDefault()] *)

Definition M (A : Type) : Type := (list Event * Result A)%type.

Definition ret {A} (a : A) : M A := ([], inr a).

Definition bind {A B} (m : M A) (k : A -> M B) : M B :=
  match snd m with
  | inl e => (fst m, inl e)
  | inr a => (fst m ++ fst (k a), snd (k a))
  end.

Definition throw {A} (e : JsError) : M A := ([], inl e).

Definition emit (ev : Event) : M unit := ([ev], inr tt).

(** [try { m } catch (err) { h err }] *)
Definition try_catch {A} (m : M A) (h : JsError -> M A) : M A :=
  match snd m with
  | inl e => (fst m ++ fst (h e), snd (h e))
  | inr a => m
  end.

(** [try { m } finally { f }]: [f] runs in both cases; the outcome is
    that of [m] unless [f] itself throws. *)
Definition finally {A} (m : M A) (f : M unit) : M A :=
  (fst m ++ fst f, match snd f with inl e => inl e | inr _ => snd m end).

Declare Scope handler_scope.
Delimit Scope handler_scope with handler.
Notation "x <- m ;; k" := (bind m (fun x => k))
  (at level 61, m at next level, right associativity) : handler_scope.
Notation "m ;; k" := (bind m (fun _ => k))
  (at level 61, right associativity) : handler_scope.
Local Open Scope handler_scope.

Definition call (u : Setter) : M unit := emit (Call u).
Definition alert (msg : jsstring) : M unit := emit (Alert msg).

(** The trace of a handler and its projections. *)
Definition trace {A} (m : M A) : list Event := fst m.
Definition outcome {A} (m : M A) : Result A := snd m.

Definition apply_event (st : AppState) (ev : Event) : AppState :=
  match ev with
  | Call u => apply_setter st u
  | _ => st
  end.

Definition apply_events (st : AppState) (t : list Event) : AppState :=
  fold_left apply_event t st.

(** The state once the setters called by the handler are applied. *)
Definition run {A} (st : AppState) (m : M A) : AppState := apply_events st (trace m).

Fixpoint fetches (t : list Event) : list Request :=
  match t with
  | [] => []
  | Fetch r :: t' => r :: fetches t'
  | _ :: t' => fetches t'
  end.

(** The events that precede the first network request. *)
Fixpoint before_first_fetch (t : list Event) : list Event :=
  match t with
  | [] => []
  | Fetch _ :: _ => []
  | ev :: t' => ev :: before_first_fetch t'
  end.

(** The state at the moment the first network request is issued. *)
Definition state_at_first_fetch {A} (st : AppState) (m : M A) : AppState :=
  apply_events st (before_first_fetch (trace m)).

(** ** The API client ([api.js]) *)

(** [await fetch(...)]: the request is issued; a network failure is
    thrown as a [TypeError]. *)
Definition fetch (req : Request) (out : FetchOutcome) : M Response :=
  emit (Fetch req) ;;
  match out with
  | NetworkFailure msg => throw (mkError TypeError msg)
  | Responded res => ret res
  end.

(** [res.json()] *)
Definition json (res : Response) : M JsVal :=
  match body res with
  | inl msg => throw (mkError SyntaxError msg)
  | inr v => ret v
  end.

Definition searchPatients (name dob : jsstring) (out : FetchOutcome) : M JsVal :=
  let params := [] in
  let params := if truthy_str name then params ++ [(lit "name", name)] else params in
  let params := if truthy_str dob then params ++ [(lit "date_of_birth", dob)] else params in
  res <- fetch (mkRequest GET (SearchUrl params) [] NoBody) out ;;
  if negb (ok res) then throw (mkError PlainError (lit "Failed to search patients"))
  else json res.

Definition getPatientSummary (patientId : JsVal) (out : FetchOutcome) : M JsVal :=
  res <- fetch (mkRequest GET (PatientUrl patientId RSummary) [] NoBody) out ;;
  if negb (ok res) then throw (mkError PlainError (lit "Failed to fetch patient summary"))
  else json res.

Definition getPatientEncounters (patientId : JsVal) (out : FetchOutcome) : M JsVal :=
  res <- fetch (mkRequest GET (PatientUrl patientId REncounters) [] NoBody) out ;;
  if negb (ok res) then throw (mkError PlainError (lit "Failed to fetch encounters"))
  else json res.

Definition getPatientMedications (patientId : JsVal) (out : FetchOutcome) : M JsVal :=
  res <- fetch (mkRequest GET (PatientUrl patientId RMedications) [] NoBody) out ;;
  if negb (ok res) then throw (mkError PlainError (lit "Failed to fetch medications"))
  else json res.

Definition getPatientAllergies (patientId : JsVal) (out : FetchOutcome) : M JsVal :=
  res <- fetch (mkRequest GET (PatientUrl patientId RAllergies) [] NoBody) out ;;
  if negb (ok res) then throw (mkError PlainError (lit "Failed to fetch allergies"))
  else json res.

Definition getPatientVitalsLabs (patientId : JsVal) (out : FetchOutcome) : M JsVal :=
  res <- fetch (mkRequest GET (PatientUrl patientId RVitalsLabs) [] NoBody) out ;;
  if negb (ok res) then throw (mkError PlainError (lit "Failed to fetch vitals/labs"))
  else json res.

Definition uploadPatientPhoto (patientId : JsVal) (file : File) (out : FetchOutcome)
  : M JsVal :=
  let formData := [(lit "file", file)] in
  res <- fetch (mkRequest POST (PatientUrl patientId RPhoto) [] (FormBody formData)) out ;;
  if negb (ok res) then throw (mkError PlainError (lit "Failed to upload photo"))
  else json res.

Definition createEncounter (patientId : JsVal) (payload : JsVal) (out : FetchOutcome)
  : M JsVal :=
  res <- fetch (mkRequest POST (PatientUrl patientId REncounters)
                  [(lit "Content-Type", lit "application/json")] (JsonBody payload)) out ;;
  if negb (ok res) then throw (mkError PlainError (lit "Failed to create encounter"))
  else json res.

(** The eight calls of the client as one type, to state what holds of
    each of them. *)
Inductive ApiCall :=
| CallSearchPatients (name dob : jsstring)
| CallGetPatientSummary (patientId : JsVal)
| CallGetPatientEncounters (patientId : JsVal)
| CallGetPatientMedications (patientId : JsVal)
| CallGetPatientAllergies (patientId : JsVal)
| CallGetPatientVitalsLabs (patientId : JsVal)
| CallUploadPatientPhoto (patientId : JsVal) (file : File)
| CallCreateEncounter (patientId : JsVal) (payload : JsVal).

Definition perform (c : ApiCall) (out : FetchOutcome) : M JsVal :=
  match c with
  | CallSearchPatients n d => searchPatients n d out
  | CallGetPatientSummary i => getPatientSummary i out
  | CallGetPatientEncounters i => getPatientEncounters i out
  | CallGetPatientMedications i => getPatientMedications i out
  | CallGetPatientAllergies i => getPatientAllergies i out
  | CallGetPatientVitalsLabs i => getPatientVitalsLabs i out
  | CallUploadPatientPhoto i f => uploadPatientPhoto i f out
  | CallCreateEncounter i p => createEncounter i p out
  end.

(** The message that names the operation in the error each call throws
    itself. *)
Definition operation_message (c : ApiCall) : jsstring :=
  match c with
  | CallSearchPatients _ _ => lit "Failed to search patients"
  | CallGetPatientSummary _ => lit "Failed to fetch patient summary"
  | CallGetPatientEncounters _ => lit "Failed to fetch encounters"
  | CallGetPatientMedications _ => lit "Failed to fetch medications"
  | CallGetPatientAllergies _ => lit "Failed to fetch allergies"
  | CallGetPatientVitalsLabs _ => lit "Failed to fetch vitals/labs"
  | CallUploadPatientPhoto _ _ => lit "Failed to upload photo"
  | CallCreateEncounter _ _ => lit "Failed to create encounter"
  end.

(** ** Property access and [Promise.all] *)

(** [v.key] on a value other than [null] and [undefined], for the two
    keys the handlers read, [patient_id] and [length]: the length of an
    array or string, the field of an object, [undefined] otherwise. *)
Definition member (v : JsVal) (key : jsstring) : JsVal :=
  match v with
  | JObj fs => lookup_field key fs
  | JArr l =>
      if jsstring_eqb key (lit "length") then JNum (Z.of_nat (List.length l)) else JUndefined
  | JStr s =>
      if jsstring_eqb key (lit "length") then JNum (Z.of_nat (List.length s)) else JUndefined
  | _ => JUndefined
  end.

(** [v.key]: a [TypeError] on [null] and [undefined]. *)
Definition get_prop (v : JsVal) (key : jsstring) : M JsVal :=
  match v with
  | JUndefined | JNull =>
      throw (mkError TypeError (lit "Cannot read properties of null or undefined"))
  | _ => ret (member v key)
  end.

(** [v === 0] *)
Definition strict_eq_zero (v : JsVal) : bool :=
  match v with
  | JNum n => (n =? 0)%Z
  | _ => false
  end.

(** Calling an [async] function: the calls it makes up to its first
    [await] are made at once and a promise is returned; the call itself
    never throws.  The promise is represented by the result it settles
    with. *)
Definition async {A} (m : M A) : M (Result A) := (trace m, inr (outcome m)).

(** [await Promise.all([p1, p2, p3, p4, p5])]: the five values when all
    five promises are fulfilled, a rejection as soon as one is rejected.
    The handlers only log the reason, so the reason kept is that of the
    first rejected promise of the array. *)
Definition Promise_all5 {A} (p1 p2 p3 p4 p5 : Result A) : M (A * A * A * A * A) :=
  match p1, p2, p3, p4, p5 with
  | inr a, inr b, inr c, inr d, inr e => ret (a, b, c, d, e)
  | inl x, _, _, _, _ => throw x
  | _, inl x, _, _, _ => throw x
  | _, _, inl x, _, _ => throw x
  | _, _, _, inl x, _ => throw x
  | _, _, _, _, inl x => throw x
  end.

(** ** The [App] component ([App.jsx]) *)

Definition canEditClinical (staffRole : jsstring) : bool :=
  jsstring_eqb staffRole (lit "Field doctor") || jsstring_eqb staffRole (lit "Hospital admin").

Definition isPolicyMaker (staffRole : jsstring) : bool :=
  jsstring_eqb staffRole (lit "Policy maker").

Definition patient_id : jsstring := lit "patient_id".

Definition handleLogin (st : AppState) : M unit :=
  emit PreventDefault ;;
  call (setStaffToken (Some (lit "demo-token"))) ;;
  call (setStaffRole (loginRole (auth st))).

Definition handleSearch (st : AppState) (out : FetchOutcome) : M unit :=
  emit PreventDefault ;;
  call (setError []) ;;
  call (setLoading true) ;;
  call (setSelectedPatient JNull) ;;
  call (setSummary JNull) ;;
  call (setEncounters (JArr [])) ;;
  call (setMedications (JArr [])) ;;
  call (setAllergies (JArr [])) ;;
  call (setVitalsLabs (JArr [])) ;;
  call (setActiveTab (lit "summary")) ;;
  finally
    (try_catch
       (results <- searchPatients (trim (name (pat st))) (trim (dob (pat st))) out ;;
        call (setPatients results) ;;
        len <- get_prop results (lit "length") ;;
        if strict_eq_zero len then call (setError (lit "No patients found")) else ret tt)
       (fun err => call (setError (lit "Error searching patients"))))
    (call (setLoading false)).

Definition loadDetails (st : AppState) (patient : JsVal)
  (o1 o2 o3 o4 o5 : FetchOutcome) : M unit :=
  call (setSelectedPatient patient) ;;
  call (setLoading true) ;;
  call (setError []) ;;
  call (setActiveTab (lit "summary")) ;;
  finally
    (try_catch
       (id <- get_prop patient patient_id ;;
        p1 <- async (getPatientSummary id o1) ;;
        id <- get_prop patient patient_id ;;
        p2 <- async (getPatientEncounters id o2) ;;
        id <- get_prop patient patient_id ;;
        p3 <- async (getPatientMedications id o3) ;;
        id <- get_prop patient patient_id ;;
        p4 <- async (getPatientAllergies id o4) ;;
        id <- get_prop patient patient_id ;;
        p5 <- async (getPatientVitalsLabs id o5) ;;
        all <- Promise_all5 p1 p2 p3 p4 p5 ;;
        let '(s, e, meds, alls, vitLabs) := all in
        call (setSummary s) ;;
        call (setEncounters e) ;;
        call (setMedications meds) ;;
        call (setAllergies alls) ;;
        call (setVitalsLabs vitLabs))
       (fun err => call (setError (lit "Error loading patient details"))))
    (call (setLoading false)).

Definition handlePhotoUpload (st : AppState) (fileOverride : option File)
  (o_upload o_summary : FetchOutcome) : M unit :=
  let fileToUse := match fileOverride with Some f => Some f | None => photoFile (photo st) end in
  match truthy (selectedPatient (pat st)), fileToUse with
  | false, _ | _, None => ret tt
  | true, Some fileToUse =>
      if negb (canEditClinical (staffRole (auth st))) then
        alert (lit "This role has read-only access and cannot change photos.")
      else
        finally
          (try_catch
             (call (setUploadingPhoto true) ;;
              id <- get_prop (selectedPatient (pat st)) patient_id ;;
              _ <- uploadPatientPhoto id fileToUse o_upload ;;
              id <- get_prop (selectedPatient (pat st)) patient_id ;;
              freshSummary <- getPatientSummary id o_summary ;;
              call (setSummary freshSummary) ;;
              match fileOverride with
              | None => call (setPhotoFile None)
              | Some _ => ret tt
              end)
             (fun err => alert (lit "Failed to upload photo")))
          (call (setUploadingPhoto false))
  end.

Definition handleCreateEncounter (st : AppState) (o_create o_list : FetchOutcome) : M unit :=
  emit PreventDefault ;;
  if negb (canEditClinical (staffRole (auth st))) then
    alert (lit "This role has read-only access and cannot add encounters.")
  else if negb (truthy (selectedPatient (pat st))) then ret tt
  else if negb (truthy_str (trim (newEncounterComplaint (form st)))) then
    alert (lit "Enter presenting complaint")
  else
    try_catch
      (id <- get_prop (selectedPatient (pat st)) patient_id ;;
       _ <- createEncounter id
              (JObj [(lit "encounter_type", JStr (newEncounterType (form st)));
                     (lit "presenting_complaint", JStr (newEncounterComplaint (form st)));
                     (lit "doctor_name",
                       if truthy_str (newEncounterDoctor (form st))
                       then JStr (newEncounterDoctor (form st)) else JNull)])
              o_create ;;
       id <- get_prop (selectedPatient (pat st)) patient_id ;;
       updated <- getPatientEncounters id o_list ;;
       call (setEncounters updated) ;;
       call (setNewEncounterComplaint []) ;;
       call (setNewEncounterDoctor []) ;;
       call (setNewEncounterType (lit "A&E")))
      (fun error => alert (lit "Failed to add encounter")).

(** The [onClick] of the Logout button. *)
Definition logoutClick : M unit :=
  call (setStaffToken None) ;;
  call (setStaffRole []) ;;
  call (setPatients (JArr [])) ;;
  call (setSelectedPatient JNull) ;;
  call (setSummary JNull).

(** The [onClick] of a search result: [() => loadDetails(p)]. *)
Definition patientClick (st : AppState) (p : JsVal) (o1 o2 o3 o4 o5 : FetchOutcome)
  : M unit :=
  _ <- async (loadDetails st p o1 o2 o3 o4 o5) ;; ret tt.

(** The [onClick] of the Upload Photo button: [() => handlePhotoUpload()]. *)
Definition uploadPhotoClick (st : AppState) (o_upload o_summary : FetchOutcome) : M unit :=
  _ <- async (handlePhotoUpload st None o_upload o_summary) ;; ret tt.

(** The [onCapture] given to [CameraCapture].  [setShowCamera(false)] is
    called while the upload is awaited; it is the only call that touches
    [showCamera], so it is placed after the calls of the upload. *)
Definition cameraOnCapture (st : AppState) (file : File)
  (o_upload o_summary : FetchOutcome) : M unit :=
  _ <- async (handlePhotoUpload st (Some file) o_upload o_summary) ;;
  call (setShowCamera false).

(** ** The [CameraCapture] component *)

(** [videoWidth || 640]: the default when the number is zero. *)
Definition or_default (n d : N) : N := if n =? 0 then d else n.

(** [ctx.drawImage(video, dx, dy, dw, dh)] *)
Definition drawImage (c : Canvas) (video : Video) (x y w h : N) : Canvas :=
  mkCanvas (canvas_width c) (canvas_height c)
    (canvas_drawn c ++ [mkDrawn (currentFrame video) x y w h]).

(** [canvas.toBlob(callback, type, quality)]: the callback receives the
    encoding of the canvas, or [null] when the browser cannot create the
    image; which of the two is the browser's, [encoded]. *)
Definition toBlob (c : Canvas) (type : jsstring) (quality : Q) (encoded : bool)
  : option Blob :=
  if encoded then Some (CanvasBlob c type quality) else None.

(** [handleCaptureClick]: the file handed to [onCapture], or [None] when
    [onCapture] is not called. *)
Definition handleCaptureClick (videoRef : option Video) (encoded : bool) : option File :=
  match videoRef with
  | None => None
  | Some video =>
      let width := or_default (videoWidth video) 640 in
      let height := or_default (videoHeight video) 480 in
      let canvas := mkCanvas width height [] in
      let canvas := drawImage canvas video 0 0 width height in
      match toBlob canvas (lit "image/jpeg") (9 # 10) encoded with
      | None => None
      | Some blob => Some (mkFile [blob] (lit "camera_capture.jpg") (lit "image/jpeg"))
      end
  end.

(** The size of the image a captured file holds. *)
Definition image_size (f : File) : option (N * N) :=
  match file_parts f with
  | [CanvasBlob c _ _] => Some (canvas_width c, canvas_height c)
  | _ => None
  end.

Definition image_encoding (f : File) : option (jsstring * Q) :=
  match file_parts f with
  | [CanvasBlob _ type quality] => Some (type, quality)
  | _ => None
  end.

Module CameraCapture.

(** A media stream and the identifiers of its tracks. *)
Record MediaStream := mkStream { stream_id : nat; getTracks : list nat }.

(** The calls the component makes on the browser, in order. *)
Inductive Effect :=
| TrackStop (track : nat)                 (* [t.stop()] *)
| GetUserMedia (facingMode : jsstring)    (* [getUserMedia({video: {facingMode}})] *)
| Play (s : MediaStream).                 (* [videoRef.current.play()] *)

(** The component and the part of the browser it acts on.  [pending]
    holds the calls of [startCamera] suspended at [await getUserMedia],
    by request number; [acquired] the streams [getUserMedia] has
    delivered; [stopped] the tracks on which [stop()] was called. *)
Record State := mkState {
  mounted : bool;
  facingMode : jsstring;
  error : jsstring;
  streamRef : option MediaStream;
  srcObject : option MediaStream;
  pending : list nat;
  requested : nat;
  acquired : list MediaStream;
  stopped : list nat;
  log : list Effect }.

Definition initial : State :=
  mkState false (lit "user") [] None None [] 0 [] [] [].

(** [stream.getTracks().forEach((t) => t.stop())] *)
Definition stopTracks (s : MediaStream) (st : State) : State :=
  mkState (mounted st) (facingMode st) (error st) (streamRef st) (srcObject st)
    (pending st) (requested st) (acquired st)
    (stopped st ++ getTracks s) (log st ++ map TrackStop (getTracks s)).

(** [startCamera] up to [await getUserMedia(...)]. *)
Definition startCamera (st : State) : State :=
  (* setError("") *)
  let st := mkState (mounted st) (facingMode st) [] (streamRef st) (srcObject st)
              (pending st) (requested st) (acquired st) (stopped st) (log st) in
  (* stop previous stream if any *)
  let st := match streamRef st with
            | Some s =>
                let st := stopTracks s st in
                mkState (mounted st) (facingMode st) (error st) None (srcObject st)
                  (pending st) (requested st) (acquired st) (stopped st) (log st)
            | None => st
            end in
  mkState (mounted st) (facingMode st) (error st) (streamRef st) (srcObject st)
    (pending st ++ [requested st]) (S (requested st)) (acquired st) (stopped st)
    (log st ++ [GetUserMedia (facingMode st)]).

(** [startCamera] from the point where [getUserMedia] settles: with a
    stream, or with an error (the [catch] branch).  A state setter
    called after the component is unmounted does nothing. *)
Definition startCamera_resume (result : jsstring + MediaStream) (st : State) : State :=
  match result with
  | inr stream =>
      let st := mkState (mounted st) (facingMode st) (error st) (Some stream) (srcObject st)
                  (pending st) (requested st) (acquired st ++ [stream]) (stopped st) (log st) in
      if mounted st then
        mkState (mounted st) (facingMode st) (error st) (streamRef st) (Some stream)
          (pending st) (requested st) (acquired st) (stopped st) (log st ++ [Play stream])
      else st
  | inl _ =>
      if mounted st then
        mkState (mounted st) (facingMode st)
          (lit "Unable to access camera. Check permissions or try a different device.")
          (streamRef st) (srcObject st)
          (pending st) (requested st) (acquired st) (stopped st) (log st)
      else st
  end.

(** The function returned by the effect: run before the effect runs
    again and on unmount. *)
Definition cleanup (st : State) : State :=
  match streamRef st with
  | Some s => stopTracks s st
  | None => st
  end.

(** What happens to the component. *)
Inductive Input :=
| Mount
| SetFacingMode (mode : jsstring)                      (* a camera button is clicked *)
| Settle (request : nat) (result : jsstring + MediaStream) (* [getUserMedia] settles *)
| Unmount.

Definition remove_request (r : nat) (l : list nat) : list nat :=
  filter (fun x => negb (Nat.eqb x r)) l.

Definition is_pending (r : nat) (st : State) : bool := existsb (Nat.eqb r) (pending st).

(** [useEffect(..., [facingMode])]: the effect runs on mount and after
    each render in which [facingMode] has changed, the cleanup of the
    previous run first. *)
Definition step (st : State) (i : Input) : State :=
  match i with
  | Mount =>
      if mounted st then st
      else startCamera (mkState true (facingMode st) (error st) (streamRef st) (srcObject st)
                          (pending st) (requested st) (acquired st) (stopped st) (log st))
  | SetFacingMode mode =>
      if negb (mounted st) || jsstring_eqb mode (facingMode st) then st
      else startCamera (cleanup (mkState (mounted st) mode (error st) (streamRef st)
                                   (srcObject st) (pending st) (requested st) (acquired st)
                                   (stopped st) (log st)))
  | Settle r result =>
      if is_pending r st then
        startCamera_resume result
          (mkState (mounted st) (facingMode st) (error st) (streamRef st) (srcObject st)
             (remove_request r (pending st)) (requested st) (acquired st) (stopped st) (log st))
      else st
  | Unmount =>
      if mounted st then
        let st := cleanup st in
        mkState false (facingMode st) (error st) (streamRef st) (srcObject st)
          (pending st) (requested st) (acquired st) (stopped st) (log st)
      else st
  end.

Definition steps (st : State) (inputs : list Input) : State := fold_left step inputs st.

(** A stream is live while one of its tracks has not been stopped. *)
Definition live (st : State) (s : MediaStream) : bool :=
  existsb (fun t => negb (existsb (Nat.eqb t) (stopped st))) (getTracks s).

Definition live_streams (st : State) : list MediaStream := filter (live st) (acquired st).

End CameraCapture.

(** * Definitions used to state the properties *)

(** The request each call of the client issues. *)
Definition request_of (c : ApiCall) : Request :=
  match c with
  | CallSearchPatients n d =>
      mkRequest GET
        (SearchUrl ((if truthy_str n then [(lit "name", n)] else [])
                    ++ (if truthy_str d then [(lit "date_of_birth", d)] else [])))
        [] NoBody
  | CallGetPatientSummary i => mkRequest GET (PatientUrl i RSummary) [] NoBody
  | CallGetPatientEncounters i => mkRequest GET (PatientUrl i REncounters) [] NoBody
  | CallGetPatientMedications i => mkRequest GET (PatientUrl i RMedications) [] NoBody
  | CallGetPatientAllergies i => mkRequest GET (PatientUrl i RAllergies) [] NoBody
  | CallGetPatientVitalsLabs i => mkRequest GET (PatientUrl i RVitalsLabs) [] NoBody
  | CallUploadPatientPhoto i f =>
      mkRequest POST (PatientUrl i RPhoto) [] (FormBody [(lit "file", f)])
  | CallCreateEncounter i p =>
      mkRequest POST (PatientUrl i REncounters)
        [(lit "Content-Type", lit "application/json")] (JsonBody p)
  end.

(** The value a call is fulfilled with, if it is: the response is 2xx
    and its body is JSON. *)
Definition fulfilled (out : FetchOutcome) : option JsVal :=
  match out with
  | NetworkFailure _ => None
  | Responded res => if ok res then match body res with inr v => Some v | inl _ => None end
                     else None
  end.

(** What a call settles with, by cases on what [fetch] did. *)
Definition settle (c : ApiCall) (out : FetchOutcome) : Result JsVal :=
  match out with
  | NetworkFailure msg => inl (mkError TypeError msg)
  | Responded res =>
      if ok res then
        match body res with
        | inl msg => inl (mkError SyntaxError msg)
        | inr v => inr v
        end
      else inl (mkError PlainError (operation_message c))
  end.

(** The contract of a call as the specification words it: the call
    fails with the error that names the operation exactly when the
    response is not 2xx or the network request fails, and a 2xx body
    that is JSON is returned as it is. *)
Definition request_failed (out : FetchOutcome) : Prop :=
  match out with
  | NetworkFailure _ => True
  | Responded res => ok res = false
  end.

Definition api_contract_as_stated (c : ApiCall) (out : FetchOutcome) : Prop :=
  ((exists e, outcome (perform c out) = inl e /\ err_message e = operation_message c)
   <-> request_failed out)
  /\ (forall res v, out = Responded res -> ok res = true -> body res = inr v ->
      outcome (perform c out) = inr v).

(** The body of the create request, from the form. *)
Definition encounter_payload (f : EncounterForm) : JsVal :=
  JObj [(lit "encounter_type", JStr (newEncounterType f));
        (lit "presenting_complaint", JStr (newEncounterComplaint f));
        (lit "doctor_name",
          match newEncounterDoctor f with [] => JNull | d => JStr d end)].

Definition create_request (st : AppState) : Request :=
  request_of (CallCreateEncounter (member (selectedPatient (pat st)) patient_id)
                (encounter_payload (form st))).

Definition list_request (st : AppState) : Request :=
  request_of (CallGetPatientEncounters (member (selectedPatient (pat st)) patient_id)).

Definition read_only_message : jsstring :=
  lit "This role has read-only access and cannot add encounters.".

(** A submission that passes the three checks of the handler. *)
Definition submittable (st : AppState) : Prop :=
  canEditClinical (staffRole (auth st)) = true
  /\ truthy (selectedPatient (pat st)) = true
  /\ truthy_str (trim (newEncounterComplaint (form st))) = true.

(** C3, as stated: a read-only role is refused with no network call; a
    submission that passes the checks issues exactly one create call
    followed by exactly one re-fetch of the encounter list. *)
Definition encounter_submission_as_stated (st : AppState) (o1 o2 : FetchOutcome) : Prop :=
  let h := handleCreateEncounter st o1 o2 in
  (canEditClinical (staffRole (auth st)) = false ->
   In (Alert read_only_message) (trace h) /\ fetches (trace h) = [])
  /\ (submittable st -> fetches (trace h) = [create_request st; list_request st]).

Definition clinician_with_patient : AppState :=
  {| auth := mkAuth (lit "Field doctor") (Some (lit "demo-token")) (lit "Field doctor");
     pat := mkPatient (lit "Jane") [] (JArr [JObj [(patient_id, JNum 1)]])
              (JObj [(patient_id, JNum 1)]) JNull (JArr []) (JArr []) (JArr []) (JArr [])
              false [] (lit "encounters");
     form := mkForm (lit "A&E") (lit "Chest pain") [];
     photo := mkPhoto None false false |}.

Definition clinician_blank_complaint : AppState :=
  {| auth := auth clinician_with_patient;
     pat := pat clinician_with_patient;
     form := mkForm (lit "OPD") [32; 9; 10; 160; 32] (lit "Dr A");
     photo := photo clinician_with_patient |}.

Definition policy_maker_with_patient : AppState :=
  {| auth := mkAuth (lit "Policy maker") (Some (lit "demo-token")) (lit "Policy maker");
     pat := pat clinician_with_patient;
     form := form clinician_with_patient;
     photo := photo clinician_with_patient |}.

Definition is_detail_setter (ev : Event) : bool :=
  match ev with
  | Call (setSummary _) | Call (setEncounters _) | Call (setMedications _)
  | Call (setAllergies _) | Call (setVitalsLabs _) => true
  | _ => false
  end.

Definition is_error_message (ev : Event) : bool :=
  match ev with
  | Call (setError (_ :: _)) => true
  | _ => false
  end.

Definition detail_slots (st : AppState) : JsVal * JsVal * JsVal * JsVal * JsVal :=
  (summary (pat st), encounters (pat st), medications (pat st), allergies (pat st),
   vitalsLabs (pat st)).

(** The requests of the five detail fetches, in the order of the array. *)
Definition detail_requests (patient : JsVal) : list Request :=
  let id := member patient patient_id in
  [request_of (CallGetPatientSummary id); request_of (CallGetPatientEncounters id);
   request_of (CallGetPatientMedications id); request_of (CallGetPatientAllergies id);
   request_of (CallGetPatientVitalsLabs id)].

(** The five values when every fetch is fulfilled. *)
Definition all_fulfilled (o1 o2 o3 o4 o5 : FetchOutcome)
  : option (JsVal * JsVal * JsVal * JsVal * JsVal) :=
  match fulfilled o1, fulfilled o2, fulfilled o3, fulfilled o4, fulfilled o5 with
  | Some s, Some e, Some meds, Some alls, Some vitLabs => Some (s, e, meds, alls, vitLabs)
  | _, _, _, _, _ => None
  end.

Definition load_error : jsstring := lit "Error loading patient details".

Definition cleared_slots : JsVal * JsVal * JsVal * JsVal * JsVal :=
  (JNull, JArr [], JArr [], JArr [], JArr []).

Definition nullish (v : JsVal) : bool :=
  match v with JUndefined | JNull => true | _ => false end.

Definition jane : JsVal := JObj [(patient_id, JNum 1); (lit "first_name", JStr (lit "Jane"))].
Definition john : JsVal := JObj [(patient_id, JNum 2); (lit "first_name", JStr (lit "John"))].

Definition served (v : JsVal) : FetchOutcome := Responded (mkResponse 200 (inr v)).
Definition unavailable : FetchOutcome := Responded (mkResponse 503 (inr JNull)).

(** Jane is selected and her details are loaded. *)
Definition jane_loaded : AppState :=
  {| auth := mkAuth (lit "Field doctor") (Some (lit "demo-token")) (lit "Field doctor");
     pat := mkPatient (lit "J") [] (JArr [jane; john]) jane jane
              (JArr [JObj [(lit "encounter_id", JNum 10)]])
              (JArr [JObj [(lit "medication_id", JNum 20)]])
              (JArr [JObj [(lit "allergy_id", JNum 30)]])
              (JArr [JObj [(lit "encounter_id", JNum 10)]])
              false [] (lit "encounters");
     form := mkForm (lit "A&E") [] [];
     photo := mkPhoto None false false |}.

Definition search_request (st : AppState) : Request :=
  request_of (CallSearchPatients (trim (name (pat st))) (trim (dob (pat st)))).

(** No patient is selected and the five detail slots are empty. *)
Definition nothing_selected (st : AppState) : Prop :=
  selectedPatient (pat st) = JNull /\ detail_slots st = cleared_slots.

Definition upload_request (st : AppState) (f : File) : Request :=
  request_of (CallUploadPatientPhoto (member (selectedPatient (pat st)) patient_id) f).

Definition summary_request (st : AppState) : Request :=
  request_of (CallGetPatientSummary (member (selectedPatient (pat st)) patient_id)).

(** A photo change with the image [f]: the upload call is made with
    [f]; when it succeeds the summary is fetched again, once, and the
    stored summary becomes the fetched record. *)
Definition uploads_then_refreshes
  (st : AppState) (f : File) (o1 o2 : FetchOutcome) (h : M unit) : Prop :=
  (exists rest, fetches (trace h) = upload_request st f :: rest)
  /\ (forall updated, fulfilled o1 = Some updated ->
      fetches (trace h) = [upload_request st f; summary_request st]
      /\ (forall freshSummary, fulfilled o2 = Some freshSummary ->
            summary (pat (run st h)) = freshSummary)).

Definition capture_file : File :=
  mkFile [CanvasBlob (mkCanvas 1280 720 [mkDrawn 0 0 0 1280 720]) (lit "image/jpeg") (9 # 10)]
    (lit "camera_capture.jpg") (lit "image/jpeg").

Definition jane_with_picked_file : AppState :=
  {| auth := auth jane_loaded;
     pat := pat jane_loaded;
     form := form jane_loaded;
     photo := mkPhoto (Some capture_file) false true |}.

Definition camera_error : jsstring :=
  lit "Unable to access camera. Check permissions or try a different device.".

Definition front_stream : CameraCapture.MediaStream := CameraCapture.mkStream 1 [11%nat].

Definition back_stream : CameraCapture.MediaStream := CameraCapture.mkStream 2 [21%nat].

(** The back camera is asked for while the request for the front camera
    is still awaited; the front stream then arrives. *)
Definition switch_while_requesting : list CameraCapture.Input :=
  [CameraCapture.Mount; CameraCapture.SetFacingMode (lit "environment");
   CameraCapture.Settle 0 (inr front_stream)].

(** * Further definitions: the rest of [App.jsx] and what states its properties *)

(** The [onChange] of the file input:
    [setPhotoFile(e.target.files?.[0] || null)]. *)
Definition photoInputChange (files : option (list File)) : M unit :=
  call (setPhotoFile match files with
                     | Some (f :: _) => Some f
                     | _ => None
                     end).

(** The [onChange] of the role select: [setLoginRole(e.target.value)]. *)
Definition loginRoleChange (value : jsstring) : M unit := call (setLoginRole value).

Definition search_error : jsstring := lit "Error searching patients".
Definition no_patients_found : jsstring := lit "No patients found".
Definition upload_failed : jsstring := lit "Failed to upload photo".
Definition encounter_failed : jsstring := lit "Failed to add encounter".
Definition photo_read_only : jsstring :=
  lit "This role has read-only access and cannot change photos.".

(** The image [handlePhotoUpload] works on: [fileOverride || photoFile]. *)
Definition file_to_use (st : AppState) (fileOverride : option File) : option File :=
  match fileOverride with Some g => Some g | None => photoFile (photo st) end.

Definition is_alert (ev : Event) : bool :=
  match ev with Alert _ => true | _ => false end.

Definition is_post (r : Request) : bool :=
  match req_method r with POST => true | GET => false end.

(** The query parameters of a search request. *)
Definition search_params (r : Request) : list (jsstring * jsstring) :=
  match req_url r with SearchUrl ps => ps | PatientUrl _ _ => [] end.

(** The search form holds white space only. *)
Definition blank_search : AppState :=
  {| auth := auth jane_loaded;
     pat := mkPatient [32; 32] [9] (JArr []) JNull JNull (JArr []) (JArr []) (JArr [])
              (JArr []) false [] (lit "summary");
     form := form jane_loaded;
     photo := photo jane_loaded |}.

(** A complaint entered with surrounding spaces. *)
Definition padded_complaint : AppState :=
  {| auth := auth clinician_with_patient;
     pat := pat clinician_with_patient;
     form := mkForm (lit "Ward") (lit "  Fever ") (lit "Dr A");
     photo := photo clinician_with_patient |}.

(** ** What [App] renders

    The conditions under which the parts of the page that carry a
    handler are rendered, read off the JSX. *)

(** [if (!staffToken)]: the login screen is returned. *)
Definition loginScreen (st : AppState) : bool :=
  match staffToken (auth st) with
  | None => true
  | Some t => negb (truthy_str t)
  end.

(** [{selectedPatient && (...)}]: the tabs and their content. *)
Definition detailsPanel (st : AppState) : bool :=
  negb (loginScreen st) && truthy (selectedPatient (pat st)).

(** [{activeTab === "summary" && summary && (...)}] *)
Definition summaryTab (st : AppState) : bool :=
  detailsPanel st && jsstring_eqb (activeTab (pat st)) (lit "summary")
  && truthy (summary (pat st)).

(** What the photo column shows: [summary.photo_path ? <img .../> :
    <div>No photo</div>]. *)
Inductive PhotoColumn := PhotoImage (photo_path : JsVal) | NoPhoto.

Definition photoColumn (st : AppState) : option PhotoColumn :=
  if summaryTab st then
    Some (if truthy (member (summary (pat st)) (lit "photo_path"))
          then PhotoImage (member (summary (pat st)) (lit "photo_path"))
          else NoPhoto)
  else None.

(** [{canEditClinical && (...)}]: the file input, the Upload Photo and
    Open Camera buttons. *)
Definition uploadControls (st : AppState) : bool :=
  summaryTab st && canEditClinical (staffRole (auth st)).

(** The Upload Photo button is rendered and not
    [disabled={!photoFile || uploadingPhoto}]. *)
Definition uploadButtonEnabled (st : AppState) : bool :=
  uploadControls st
  && negb (match photoFile (photo st) with None => true | Some _ => false end
           || uploadingPhoto (photo st)).

(** [{showCamera && (<CameraCapture .../>)}] *)
Definition cameraShown (st : AppState) : bool :=
  uploadControls st && showCamera (photo st).

(** [{isPolicyMaker && (...)}]: the view-only note under the photo. *)
Definition policyMakerNote (st : AppState) : bool :=
  summaryTab st && isPolicyMaker (staffRole (auth st)).

(** [{activeTab === "encounters" && (...)}] and, in it,
    [{canEditClinical ? (<form onSubmit={handleCreateEncounter}>) : (...)}]. *)
Definition encountersTab (st : AppState) : bool :=
  detailsPanel st && jsstring_eqb (activeTab (pat st)) (lit "encounters").

Definition encounterForm (st : AppState) : bool :=
  encountersTab st && canEditClinical (staffRole (auth st)).

(** A summary without photo reference. *)
Definition jane_summary : JsVal :=
  JObj [(patient_id, JNum 1); (lit "first_name", JStr (lit "Jane"));
        (lit "photo_path", JNull)].

Definition logged_in : AppState :=
  {| auth := mkAuth (lit "Field doctor") (Some (lit "demo-token")) (lit "Field doctor");
     pat := pat initialState;
     form := form initialState;
     photo := photo initialState |}.

(** The summary tab of Jane is shown to a field doctor who has picked a
    file and opened the camera. *)
Definition summary_tab_with_file : AppState :=
  {| auth := auth jane_loaded;
     pat := apply_pat (setActiveTab (lit "summary")) (pat jane_loaded);
     form := form jane_loaded;
     photo := mkPhoto (Some capture_file) false true |}.

(** ** Use of the camera without overlap

    An input is in turn when it does not overlap two acquisitions: the
    component is mounted once, the facing mode is switched and the
    component unmounted only while no [getUserMedia] is awaited, and
    the browser delivers a stream it has not delivered before. *)
Definition in_turn (st : CameraCapture.State) (i : CameraCapture.Input) : Prop :=
  match i with
  | CameraCapture.Mount => CameraCapture.requested st = 0%nat
  | CameraCapture.SetFacingMode _ | CameraCapture.Unmount => CameraCapture.pending st = []
  | CameraCapture.Settle _ (inr s) => ~ In s (CameraCapture.acquired st)
  | CameraCapture.Settle _ (inl _) => True
  end.

Fixpoint serial (st : CameraCapture.State) (inputs : list CameraCapture.Input) : Prop :=
  match inputs with
  | [] => True
  | i :: rest => in_turn st i /\ serial (CameraCapture.step st i) rest
  end.

(** What such a use maintains. *)
Definition one_stream_at_most (st : CameraCapture.State) : Prop :=
  NoDup (CameraCapture.acquired st)
  /\ (forall s, In s (CameraCapture.acquired st) ->
        CameraCapture.streamRef st <> Some s -> CameraCapture.live st s = false)
  /\ (CameraCapture.pending st = []
      \/ exists r, CameraCapture.pending st = [r] /\ CameraCapture.streamRef st = None
                   /\ CameraCapture.mounted st = true)
  /\ (CameraCapture.mounted st = false ->
      forall s, In s (CameraCapture.acquired st) -> CameraCapture.live st s = false)
  /\ (CameraCapture.requested st = 0%nat ->
      CameraCapture.pending st = [] /\ CameraCapture.streamRef st = None).

(** The camera is opened, streams from the front, is switched to the
    back and closed, each step after the previous one has completed. *)
Definition front_then_back : list CameraCapture.Input :=
  [CameraCapture.Mount; CameraCapture.Settle 0 (inr front_stream);
   CameraCapture.SetFacingMode (lit "environment");
   CameraCapture.Settle 1 (inr back_stream); CameraCapture.Unmount].

(** * Properties *)

(** ** Auxiliary lemmas *)

Lemma perform_eq (c : ApiCall) (out : FetchOutcome) :
  perform c out = ([Fetch (request_of c)], settle c out).
Proof.
  destruct c as [n d | i | i | i | i | i | i f | i p];
    destruct out as [msg | res];
    unfold perform, settle, request_of, searchPatients, getPatientSummary,
      getPatientEncounters, getPatientMedications, getPatientAllergies,
      getPatientVitalsLabs, uploadPatientPhoto, createEncounter, fetch, json,
      bind, emit, throw, ret, operation_message;
    try (destruct (truthy_str n); destruct (truthy_str d));
    cbn [fst snd app negb];
    try reflexivity;
    destruct (ok res); cbn [fst snd app negb]; try reflexivity;
    destruct (body res); reflexivity.
Qed.

Lemma settle_fulfilled (c : ApiCall) (out : FetchOutcome) (v : JsVal) :
  settle c out = inr v <-> fulfilled out = Some v.
Proof.
  destruct out as [msg | [st [msg | w]]]; unfold settle, fulfilled; cbn;
    try destruct (ok _); split; intros H; try discriminate; congruence.
Qed.

Lemma settle_rejected (c : ApiCall) (out : FetchOutcome) :
  fulfilled out = None -> exists e, settle c out = inl e.
Proof.
  destruct out as [msg | [st [msg | w]]]; unfold settle, fulfilled; cbn;
    try destruct (ok _); intros H; try discriminate; eauto.
Qed.

Lemma trimStart_nil_iff (s : jsstring) :
  trimStart s = [] <-> forallb isWhiteSpace s = true.
Proof.
  induction s as [| c r IH]; cbn [trimStart forallb].
  - split; reflexivity.
  - destruct (isWhiteSpace c); cbn [andb]; [exact IH |].
    split; intros H; discriminate.
Qed.

(** [trimStart] leaves the empty string or a string that starts with a
    character that is not white space. *)
Lemma trimStart_head (s : jsstring) :
  trimStart s = [] \/
  exists c r, trimStart s = c :: r /\ isWhiteSpace c = false.
Proof.
  induction s as [| c r IH]; cbn [trimStart]; [now left |].
  destruct (isWhiteSpace c) eqn:E; [exact IH |].
  right. exists c, r. split; [reflexivity | exact E].
Qed.

(** A string is empty after trimming exactly when it consists of white
    space only. *)
Lemma trim_nil_iff (s : jsstring) :
  trim s = [] <-> forallb isWhiteSpace s = true.
Proof.
  unfold trim, trimEnd. split.
  - intros H.
    assert (H1 : trimStart (rev (trimStart s)) = []).
    { destruct (trimStart (rev (trimStart s))) as [| x l]; [reflexivity |].
      cbn [rev] in H. destruct (rev l); discriminate. }
    apply trimStart_nil_iff in H1. rewrite forallb_forall in H1.
    destruct (trimStart_head s) as [E | (c & r & E & Hc)].
    + now apply trimStart_nil_iff.
    + rewrite E in H1. specialize (H1 c).
      rewrite <- in_rev in H1. rewrite H1 in Hc by now left. discriminate.
  - intros H. apply trimStart_nil_iff in H. rewrite H. reflexivity.
Qed.

Lemma truthy_trim_false (s : jsstring) :
  truthy_str (trim s) = false <-> forallb isWhiteSpace s = true.
Proof.
  rewrite <- trim_nil_iff. destruct (trim s); cbn; split; intros H;
    try reflexivity; discriminate.
Qed.

(** Property access does not throw on a truthy value. *)
Lemma get_prop_truthy (v : JsVal) (key : jsstring) :
  truthy v = true -> get_prop v key = ret (member v key).
Proof. destruct v; cbn; intros H; try discriminate; reflexivity. Qed.

(** ** The model on concrete inputs *)

Example trim_strips_both_ends :
  trim (lit "  Chest pain ") = lit "Chest pain"
  /\ trim [9; 32; 160; 10] = []
  /\ trim (lit "a  b") = lit "a  b".
Proof. repeat split. Qed.

Example roles_of_the_login_form :
  map canEditClinical [lit "Field doctor"; lit "Policy maker"; lit "Hospital admin"; []]
  = [true; false; true; false].
Proof. reflexivity. Qed.

Example search_with_name_only :
  trace (searchPatients (lit "Jane") [] (served (JArr [])))
  = [Fetch (mkRequest GET (SearchUrl [(lit "name", lit "Jane")]) [] NoBody)].
Proof. reflexivity. Qed.

Example search_without_result :
  error (pat (run initialState (handleSearch initialState (served (JArr [])))))
    = lit "No patients found"
  /\ error (pat (run initialState (handleSearch initialState unavailable)))
    = lit "Error searching patients"
  /\ patients (pat (run initialState (handleSearch initialState (served (JArr [jane; john])))))
    = JArr [jane; john].
Proof. repeat split. Qed.

(** All five fetches fulfilled: the five slots hold the five results. *)
Example details_loaded :
  let st := run initialState
              (loadDetails initialState jane (served jane) (served (JArr [JNum 1]))
                 (served (JArr [JNum 2])) (served (JArr [JNum 3])) (served (JArr [JNum 4]))) in
  selectedPatient (pat st) = jane
  /\ detail_slots st = (jane, JArr [JNum 1], JArr [JNum 2], JArr [JNum 3], JArr [JNum 4])
  /\ error (pat st) = [] /\ loading (pat st) = false.
Proof. repeat split. Qed.

Example camera_switch_after_streaming :
  let st := CameraCapture.steps CameraCapture.initial
              [CameraCapture.Mount; CameraCapture.Settle 0 (inr front_stream);
               CameraCapture.SetFacingMode (lit "environment");
               CameraCapture.Settle 1 (inr back_stream)] in
  CameraCapture.live_streams st = [back_stream]
  /\ CameraCapture.log st
     = [CameraCapture.GetUserMedia (lit "user"); CameraCapture.Play front_stream;
        CameraCapture.TrackStop 11; CameraCapture.TrackStop 11;
        CameraCapture.GetUserMedia (lit "environment"); CameraCapture.Play back_stream].
Proof. repeat split. Qed.

(** ** The API client *)

(** C7, as stated, fails: when the network request itself fails,
    [getPatientSummary] rejects with the error of [fetch], whose message
    is the browser's and does not name the operation. *)
Lemma api_contract_counterexample :
  ~ api_contract_as_stated (CallGetPatientSummary (JNum 1))
      (NetworkFailure (lit "Failed to fetch")).
Proof.
  intros [[_ H] _]. destruct (H I) as (e & He & Hm).
  rewrite perform_eq in He. cbn in He. injection He as <-.
  vm_compute in Hm. discriminate.
Qed.

(** C7 (amended): every call of the client issues exactly one request;
    it fails with the error that names its operation if and only if
    [fetch] delivered a response that is not 2xx; when the network
    request fails it fails with the error of [fetch]; on a 2xx response
    the body is parsed as JSON and, when it parses, returned as it is
    with no validation; when it does not parse, the call fails with the
    parser's error. *)
Theorem api_contract (c : ApiCall) (out : FetchOutcome) :
  trace (perform c out) = [Fetch (request_of c)]
  /\ (outcome (perform c out) = inl (mkError PlainError (operation_message c))
      <-> exists res, out = Responded res /\ ok res = false)
  /\ (forall msg, out = NetworkFailure msg ->
      outcome (perform c out) = inl (mkError TypeError msg))
  /\ (forall res v, out = Responded res -> ok res = true -> body res = inr v ->
      outcome (perform c out) = inr v)
  /\ (forall res msg, out = Responded res -> ok res = true -> body res = inl msg ->
      outcome (perform c out) = inl (mkError SyntaxError msg)).
Proof.
  rewrite perform_eq. unfold trace, outcome. cbn [fst snd].
  split; [reflexivity |]. split; [| split; [| split]].
  - unfold settle. destruct out as [msg | res].
    + split; [intros H; discriminate | intros (r & H & _); discriminate].
    + destruct (ok res) eqn:Hok.
      * split; [| intros (r & H & Hr); injection H as <-; congruence].
        destruct (body res); intros H; discriminate.
      * split; [intros _; eauto | reflexivity].
  - intros msg ->. reflexivity.
  - intros res v -> Hok Hb. unfold settle. rewrite Hok, Hb. reflexivity.
  - intros res msg -> Hok Hb. unfold settle. rewrite Hok, Hb. reflexivity.
Qed.

Lemma api_contract_witness :
  let c := CallCreateEncounter (JNum 7) (JObj []) in
  outcome (perform c (Responded (mkResponse 500 (inr JNull))))
    = inl (mkError PlainError (operation_message c))
  /\ outcome (perform c (NetworkFailure (lit "Failed to fetch")))
    = inl (mkError TypeError (lit "Failed to fetch"))
  /\ outcome (perform c (Responded (mkResponse 201 (inr (JObj [])))))
    = inr (JObj [])
  /\ outcome (perform c (Responded (mkResponse 200 (inl (lit "Unexpected token")))))
    = inl (mkError SyntaxError (lit "Unexpected token")).
Proof.
  intros c. split; [| split; [| split]].
  - apply (api_contract c (Responded (mkResponse 500 (inr JNull)))).
    exists (mkResponse 500 (inr JNull)). split; reflexivity.
  - destruct (api_contract c (NetworkFailure (lit "Failed to fetch")))
      as (_ & _ & H & _).
    apply H. reflexivity.
  - destruct (api_contract c (Responded (mkResponse 201 (inr (JObj [])))))
      as (_ & _ & _ & H & _).
    apply (H (mkResponse 201 (inr (JObj [])))); reflexivity.
  - destruct (api_contract c (Responded (mkResponse 200 (inl (lit "Unexpected token")))))
      as (_ & _ & _ & _ & H).
    apply (H (mkResponse 200 (inl (lit "Unexpected token")))); reflexivity.
Defined.

(** ** Reasoning about handlers *)

Lemma bind_ret_l {A B} (a : A) (k : A -> M B) : bind (ret a) k = k a.
Proof. unfold bind, ret. cbn. destruct (k a); reflexivity. Qed.

(** Replace every call of the client by its request and what it settles
    with. *)
Ltac api_calls :=
  repeat match goal with
  | |- context [searchPatients ?n ?d ?o] =>
      change (searchPatients n d o) with (perform (CallSearchPatients n d) o)
  | |- context [getPatientSummary ?i ?o] =>
      change (getPatientSummary i o) with (perform (CallGetPatientSummary i) o)
  | |- context [getPatientEncounters ?i ?o] =>
      change (getPatientEncounters i o) with (perform (CallGetPatientEncounters i) o)
  | |- context [getPatientMedications ?i ?o] =>
      change (getPatientMedications i o) with (perform (CallGetPatientMedications i) o)
  | |- context [getPatientAllergies ?i ?o] =>
      change (getPatientAllergies i o) with (perform (CallGetPatientAllergies i) o)
  | |- context [getPatientVitalsLabs ?i ?o] =>
      change (getPatientVitalsLabs i o) with (perform (CallGetPatientVitalsLabs i) o)
  | |- context [uploadPatientPhoto ?i ?f ?o] =>
      change (uploadPatientPhoto i f o) with (perform (CallUploadPatientPhoto i f) o)
  | |- context [createEncounter ?i ?p ?o] =>
      change (createEncounter i p o) with (perform (CallCreateEncounter i p) o)
  end;
  rewrite ?perform_eq.

(** Rewrite what a call settles with from what is known of its outcome. *)
Ltac settle_with H :=
  match type of H with
  | fulfilled ?o = Some ?v =>
      repeat match goal with
      | |- context [settle ?c o] =>
          rewrite (proj2 (settle_fulfilled c o v) H)
      end
  | fulfilled ?o = None =>
      repeat match goal with
      | |- context [settle ?c o] =>
          let e := fresh "err" in
          let E := fresh "Hrej" in
          destruct (settle_rejected c o H) as [e E]; rewrite E
      end
  end.

(** ** Adding an encounter *)

Lemma handleCreateEncounter_submittable (st : AppState) (o1 o2 : FetchOutcome) :
  submittable st ->
  handleCreateEncounter st o1 o2 =
    (emit PreventDefault ;;
     try_catch
       (_ <- ([Fetch (create_request st)],
              settle (CallCreateEncounter (member (selectedPatient (pat st)) patient_id)
                        (encounter_payload (form st))) o1) ;;
        updated <- ([Fetch (list_request st)],
                    settle (CallGetPatientEncounters
                              (member (selectedPatient (pat st)) patient_id)) o2) ;;
        call (setEncounters updated) ;;
        call (setNewEncounterComplaint []) ;;
        call (setNewEncounterDoctor []) ;;
        call (setNewEncounterType (lit "A&E")))
       (fun error => alert (lit "Failed to add encounter"))).
Proof.
  intros (Hrole & Hsel & Hc). unfold handleCreateEncounter.
  rewrite Hrole, Hsel, Hc, (get_prop_truthy _ _ Hsel). cbn [negb].
  rewrite !bind_ret_l. api_calls.
  unfold create_request, list_request, encounter_payload.
  destruct (newEncounterDoctor (form st)); reflexivity.
Qed.

(** C3, as stated, fails: when the create call is answered with status
    500, the handler alerts and never re-fetches the encounter list. *)
Lemma encounter_submission_counterexample :
  ~ encounter_submission_as_stated clinician_with_patient
      (Responded (mkResponse 500 (inr JNull)))
      (Responded (mkResponse 200 (inr (JArr [])))).
Proof.
  intros [_ H].
  assert (Hs : submittable clinician_with_patient) by (repeat split).
  specialize (H Hs). vm_compute in H. discriminate.
Qed.

(** C3 (amended): the capability is true for the field doctor and the
    hospital administrator and false for the policy maker; a submission
    under a role without the capability is refused with the permission
    message, no network call and no change of state; a submission that
    passes the checks issues exactly one create call, and, when that
    call succeeds, exactly one re-fetch of the encounter list after it,
    whose result, when it succeeds too, replaces the stored encounters;
    when the create call fails, no other call is made and the stored
    encounters are kept. *)
Theorem encounter_submission (st : AppState) (o1 o2 : FetchOutcome) :
  let h := handleCreateEncounter st o1 o2 in
  (canEditClinical (lit "Field doctor") = true
   /\ canEditClinical (lit "Hospital admin") = true
   /\ canEditClinical (lit "Policy maker") = false)
  /\ (canEditClinical (staffRole (auth st)) = false ->
      trace h = [PreventDefault; Alert read_only_message]
      /\ fetches (trace h) = []
      /\ run st h = st)
  /\ (submittable st ->
      (forall created, fulfilled o1 = Some created ->
         fetches (trace h) = [create_request st; list_request st]
         /\ (forall updated, fulfilled o2 = Some updated ->
               encounters (pat (run st h)) = updated))
      /\ (fulfilled o1 = None ->
            fetches (trace h) = [create_request st]
            /\ encounters (pat (run st h)) = encounters (pat st))).
Proof.
  cbv zeta. split; [repeat split |]. split.
  - intros Hrole. unfold handleCreateEncounter. rewrite Hrole. cbn.
    destruct st as [a p f ph]; destruct a, p, f, ph. repeat split.
  - intros Hs. rewrite (handleCreateEncounter_submittable st o1 o2 Hs). split.
    + intros created H1. settle_with H1. split.
      * destruct (settle (CallGetPatientEncounters _) o2); reflexivity.
      * intros updated H2. settle_with H2. reflexivity.
    + intros H1. settle_with H1. split; reflexivity.
Qed.

Lemma encounter_submission_witness :
  (submittable clinician_with_patient
   /\ fetches (trace (handleCreateEncounter clinician_with_patient
        (served (JObj [])) (served (JArr [JObj []]))))
      = [create_request clinician_with_patient; list_request clinician_with_patient]
   /\ encounters (pat (run clinician_with_patient
        (handleCreateEncounter clinician_with_patient
           (served (JObj [])) (served (JArr [JObj []])))))
      = JArr [JObj []])
  /\ (canEditClinical (staffRole (auth policy_maker_with_patient)) = false
      /\ fetches (trace (handleCreateEncounter policy_maker_with_patient
           (served (JObj [])) (served (JArr [])))) = [])
  /\ (fulfilled unavailable = None
      /\ fetches (trace (handleCreateEncounter clinician_with_patient
           unavailable (served (JArr []))))
         = [create_request clinician_with_patient]).
Proof.
  assert (Hs : submittable clinician_with_patient) by (repeat split).
  split; [| split].
  - split; [exact Hs |].
    destruct (encounter_submission clinician_with_patient
                (served (JObj [])) (served (JArr [JObj []])))
      as (_ & _ & H).
    destruct (H Hs) as [H1 _].
    destruct (H1 (JObj []) eq_refl) as [Hf Hu].
    split; [exact Hf | exact (Hu (JArr [JObj []]) eq_refl)].
  - split; [reflexivity |].
    destruct (encounter_submission policy_maker_with_patient
                (served (JObj [])) (served (JArr [])))
      as (_ & H & _).
    exact (proj1 (proj2 (H eq_refl))).
  - split; [reflexivity |].
    destruct (encounter_submission clinician_with_patient
                unavailable (served (JArr [])))
      as (_ & _ & H).
    destruct (H Hs) as [_ H2]. exact (proj1 (H2 eq_refl)).
Defined.

(** C4: a submission by a role with the capability, with a patient
    selected and a presenting complaint made of white space only (empty
    after trimming), is refused with the validation message: no network
    call is made and no state slot changes. *)
Theorem blank_complaint_rejected (st : AppState) (o1 o2 : FetchOutcome) :
  canEditClinical (staffRole (auth st)) = true ->
  truthy (selectedPatient (pat st)) = true ->
  forallb isWhiteSpace (newEncounterComplaint (form st)) = true ->
  let h := handleCreateEncounter st o1 o2 in
  trim (newEncounterComplaint (form st)) = []
  /\ trace h = [PreventDefault; Alert (lit "Enter presenting complaint")]
  /\ fetches (trace h) = []
  /\ run st h = st.
Proof.
  intros Hrole Hsel Hws h. subst h.
  split; [now apply trim_nil_iff |].
  apply truthy_trim_false in Hws.
  unfold handleCreateEncounter. rewrite Hrole, Hsel, Hws. cbn.
  destruct st as [a p f ph]; destruct a, p, f, ph. repeat split.
Qed.

Lemma blank_complaint_rejected_witness :
  let h := handleCreateEncounter clinician_blank_complaint
             (Responded (mkResponse 201 (inr (JObj []))))
             (Responded (mkResponse 200 (inr (JArr [])))) in
  trim (newEncounterComplaint (form clinician_blank_complaint)) = []
  /\ trace h = [PreventDefault; Alert (lit "Enter presenting complaint")]
  /\ fetches (trace h) = []
  /\ run clinician_blank_complaint h = clinician_blank_complaint.
Proof.
  apply (blank_complaint_rejected clinician_blank_complaint); reflexivity.
Defined.

(** C9: in every submission that reaches the create call, the request
    carries the doctor name as [null] when the field is empty and as
    entered otherwise; it is never the empty string. *)
Theorem doctor_name_normalized (st : AppState) (o1 o2 : FetchOutcome) :
  submittable st ->
  exists payload rest,
    fetches (trace (handleCreateEncounter st o1 o2))
      = mkRequest POST (PatientUrl (member (selectedPatient (pat st)) patient_id) REncounters)
          [(lit "Content-Type", lit "application/json")] (JsonBody payload) :: rest
    /\ member payload (lit "doctor_name")
       = match newEncounterDoctor (form st) with
         | [] => JNull
         | _ :: _ => JStr (newEncounterDoctor (form st))
         end
    /\ member payload (lit "doctor_name") <> JStr [].
Proof.
  intros Hs. rewrite (handleCreateEncounter_submittable st o1 o2 Hs).
  exists (encounter_payload (form st)).
  destruct (settle (CallCreateEncounter _ _) o1);
    destruct (settle (CallGetPatientEncounters _) o2);
    (eexists; split; [reflexivity |]);
    unfold encounter_payload; destruct (newEncounterDoctor (form st)); cbn;
    split; try reflexivity; discriminate.
Qed.

Lemma doctor_name_normalized_witness :
  submittable clinician_with_patient
  /\ exists payload rest,
    fetches (trace (handleCreateEncounter clinician_with_patient
       (Responded (mkResponse 201 (inr (JObj []))))
       (Responded (mkResponse 200 (inr (JArr []))))))
      = mkRequest POST (PatientUrl (JNum 1) REncounters)
          [(lit "Content-Type", lit "application/json")] (JsonBody payload) :: rest
    /\ member payload (lit "doctor_name") = JNull
    /\ member payload (lit "doctor_name") <> JStr [].
Proof.
  assert (Hs : submittable clinician_with_patient) by (repeat split).
  split; [exact Hs |].
  exact (doctor_name_normalized clinician_with_patient
           (Responded (mkResponse 201 (inr (JObj []))))
           (Responded (mkResponse 200 (inr (JArr [])))) Hs).
Defined.

(** The doctor name is not trimmed: a name made of spaces is not empty
    and is sent as entered. *)
Lemma doctor_name_of_spaces_is_sent (f : EncounterForm) :
  newEncounterDoctor f = [32; 32] ->
  member (encounter_payload f) (lit "doctor_name") = JStr [32; 32].
Proof. intros H. unfold encounter_payload. rewrite H. reflexivity. Qed.

#[local] Arguments searchPatients : simpl never.
#[local] Arguments getPatientSummary : simpl never.
#[local] Arguments getPatientEncounters : simpl never.
#[local] Arguments getPatientMedications : simpl never.
#[local] Arguments getPatientAllergies : simpl never.
#[local] Arguments getPatientVitalsLabs : simpl never.
#[local] Arguments uploadPatientPhoto : simpl never.
#[local] Arguments createEncounter : simpl never.
#[local] Arguments settle : simpl never.
#[local] Arguments request_of : simpl never.
#[local] Arguments lit : simpl never.

(** ** Selecting a patient *)

Lemma get_prop_defined (v : JsVal) (key : jsstring) :
  nullish v = false -> get_prop v key = ret (member v key).
Proof. destruct v; cbn; intros H; try discriminate; reflexivity. Qed.

(** The calls [loadDetails] makes for a patient whose identifier can be
    read, in order. *)
Lemma loadDetails_trace (st : AppState) (patient : JsVal) (o1 o2 o3 o4 o5 : FetchOutcome) :
  nullish patient = false ->
  loadDetails st patient o1 o2 o3 o4 o5 =
    ([Call (setSelectedPatient patient); Call (setLoading true); Call (setError []);
      Call (setActiveTab (lit "summary"))]
     ++ map Fetch (detail_requests patient)
     ++ match all_fulfilled o1 o2 o3 o4 o5 with
        | Some (s, e, meds, alls, vitLabs) =>
            [Call (setSummary s); Call (setEncounters e); Call (setMedications meds);
             Call (setAllergies alls); Call (setVitalsLabs vitLabs)]
        | None => [Call (setError load_error)]
        end
     ++ [Call (setLoading false)],
     inr tt).
Proof.
  intros Ht. unfold loadDetails. rewrite (get_prop_defined _ _ Ht). cbn.
  api_calls. unfold trace, outcome, all_fulfilled, detail_requests. cbn [fst snd].
  set (id := member patient patient_id).
  destruct (fulfilled o1) as [v1 |] eqn:E1; settle_with E1;
  destruct (fulfilled o2) as [v2 |] eqn:E2; settle_with E2;
  destruct (fulfilled o3) as [v3 |] eqn:E3; settle_with E3;
  destruct (fulfilled o4) as [v4 |] eqn:E4; settle_with E4;
  destruct (fulfilled o5) as [v5 |] eqn:E5; settle_with E5;
  reflexivity.
Qed.

(** When the identifier cannot be read, no fetch is made and the error
    path is taken. *)
Lemma loadDetails_nullish (st : AppState) (patient : JsVal) (o1 o2 o3 o4 o5 : FetchOutcome) :
  nullish patient = true ->
  loadDetails st patient o1 o2 o3 o4 o5 =
    ([Call (setSelectedPatient patient); Call (setLoading true); Call (setError []);
      Call (setActiveTab (lit "summary")); Call (setError load_error);
      Call (setLoading false)], inr tt).
Proof. destruct patient; cbn; intros H; try discriminate; reflexivity. Qed.

Lemma all_fulfilled_none (o1 o2 o3 o4 o5 : FetchOutcome) :
  fulfilled o1 = None \/ fulfilled o2 = None \/ fulfilled o3 = None
  \/ fulfilled o4 = None \/ fulfilled o5 = None ->
  all_fulfilled o1 o2 o3 o4 o5 = None.
Proof.
  unfold all_fulfilled. intros [H | [H | [H | [H | H]]]]; rewrite H;
    repeat match goal with |- context [fulfilled ?o] => destruct (fulfilled o) end;
    reflexivity.
Qed.

(** C2: when at least one of the five detail fetches fails, the error
    message of the joined operation is set exactly once, no setter of
    the five detail slots is called, and the five slots hold what they
    held before the selection. *)
Theorem failed_batch_stores_nothing
  (st : AppState) (patient : JsVal) (o1 o2 o3 o4 o5 : FetchOutcome) :
  fulfilled o1 = None \/ fulfilled o2 = None \/ fulfilled o3 = None
  \/ fulfilled o4 = None \/ fulfilled o5 = None ->
  let h := loadDetails st patient o1 o2 o3 o4 o5 in
  List.length (filter is_error_message (trace h)) = 1%nat
  /\ error (pat (run st h)) = load_error
  /\ filter is_detail_setter (trace h) = []
  /\ detail_slots (run st h) = detail_slots st.
Proof.
  intros Hfail h. subst h.
  destruct (nullish patient) eqn:Ht.
  - rewrite (loadDetails_nullish _ _ _ _ _ _ _ Ht). repeat split.
  - rewrite (loadDetails_trace _ _ _ _ _ _ _ Ht), (all_fulfilled_none _ _ _ _ _ Hfail).
    repeat split.
Qed.

Lemma failed_batch_stores_nothing_witness :
  let h := loadDetails initialState jane (served jane) (served (JArr [JObj []]))
             unavailable (served (JArr [])) (served (JArr [])) in
  List.length (filter is_error_message (trace h)) = 1%nat
  /\ error (pat (run initialState h)) = load_error
  /\ filter is_detail_setter (trace h) = []
  /\ detail_slots (run initialState h) = detail_slots initialState.
Proof.
  apply (failed_batch_stores_nothing initialState jane).
  right. right. left. reflexivity.
Defined.

(** What [loadDetails] and the logout button leave untouched, in any
    state. *)
Lemma loadDetails_clears_nothing
  (st : AppState) (patient : JsVal) (o1 o2 o3 o4 o5 : FetchOutcome) :
  detail_slots (state_at_first_fetch st (loadDetails st patient o1 o2 o3 o4 o5))
    = detail_slots st.
Proof.
  destruct (nullish patient) eqn:Ht.
  - rewrite (loadDetails_nullish _ _ _ _ _ _ _ Ht). reflexivity.
  - rewrite (loadDetails_trace _ _ _ _ _ _ _ Ht). reflexivity.
Qed.

Lemma logout_keeps_lists (st : AppState) :
  let st' := run st logoutClick in
  encounters (pat st') = encounters (pat st)
  /\ medications (pat st') = medications (pat st)
  /\ allergies (pat st') = allergies (pat st)
  /\ vitalsLabs (pat st') = vitalsLabs (pat st).
Proof. repeat split. Qed.

(** C1 (the code departs from it): with Jane selected and her details
    loaded, selecting John leaves the five slots holding Jane's data
    when the new fetches are issued, and they still hold it, under
    John's selection, when the batch fails; logout clears the selection
    and the summary and leaves Jane's encounters, medications,
    allergies and vitals/labs in place. *)
Theorem detail_slots_survive_reselection_and_logout :
  let h := loadDetails jane_loaded john unavailable unavailable unavailable
             unavailable unavailable in
  detail_slots jane_loaded <> cleared_slots
  /\ detail_slots (state_at_first_fetch jane_loaded h) = detail_slots jane_loaded
  /\ selectedPatient (pat (run jane_loaded h)) = john
  /\ detail_slots (run jane_loaded h) = detail_slots jane_loaded
  /\ selectedPatient (pat (run jane_loaded logoutClick)) = JNull
  /\ detail_slots (run jane_loaded logoutClick)
     = (JNull, encounters (pat jane_loaded), medications (pat jane_loaded),
        allergies (pat jane_loaded), vitalsLabs (pat jane_loaded))
  /\ detail_slots (run jane_loaded logoutClick) <> cleared_slots.
Proof.
  cbv zeta. split; [intros H; vm_compute in H; discriminate |].
  split; [apply loadDetails_clears_nothing |].
  split; [reflexivity |]. split; [reflexivity |]. split; [reflexivity |].
  split; [reflexivity |]. intros H; vm_compute in H; discriminate.
Qed.

(** ** Searching *)

(** C10: a search issues one request; when it is issued the selection
    and the five detail slots have been cleared, and they are still
    clear when the handler ends, whatever the outcome of the search. *)
Theorem search_clears_selection (st : AppState) (out : FetchOutcome) :
  let h := handleSearch st out in
  fetches (trace h) = [search_request st]
  /\ nothing_selected (state_at_first_fetch st h)
  /\ nothing_selected (run st h).
Proof.
  cbv zeta. unfold handleSearch. api_calls. fold (search_request st).
  destruct (settle _ out) as [e | results].
  - repeat split.
  - destruct results as [| | b | n | s | l | fs]; cbn;
      repeat match goal with
      | |- context [if ?b then _ else _] => destruct b
      end;
      repeat split.
Qed.

(** ** Changing the photo *)

(** The calls [handlePhotoUpload] makes once its checks are passed with
    the image [f], in order. *)
Lemma handlePhotoUpload_trace
  (st : AppState) (fileOverride : option File) (f : File) (o1 o2 : FetchOutcome) :
  truthy (selectedPatient (pat st)) = true ->
  canEditClinical (staffRole (auth st)) = true ->
  match fileOverride with Some g => Some g | None => photoFile (photo st) end = Some f ->
  handlePhotoUpload st fileOverride o1 o2 =
    ([Call (setUploadingPhoto true); Fetch (upload_request st f)]
     ++ match fulfilled o1 with
        | Some _ =>
            Fetch (summary_request st)
            :: match fulfilled o2 with
               | Some freshSummary =>
                   Call (setSummary freshSummary)
                   :: match fileOverride with
                      | None => [Call (setPhotoFile None)]
                      | Some _ => []
                      end
               | None => [Alert (lit "Failed to upload photo")]
               end
        | None => [Alert (lit "Failed to upload photo")]
        end
     ++ [Call (setUploadingPhoto false)],
     inr tt).
Proof.
  intros Hsel Hrole Hf. unfold handlePhotoUpload. rewrite Hf, Hsel, Hrole.
  rewrite (get_prop_truthy _ _ Hsel). cbn [negb]. rewrite !bind_ret_l.
  api_calls. unfold upload_request, summary_request.
  destruct (fulfilled o1) as [v1 |] eqn:E1; settle_with E1;
    [destruct (fulfilled o2) as [v2 |] eqn:E2; settle_with E2 |];
    destruct fileOverride; try reflexivity;
    destruct (settle (CallGetPatientSummary _) o2); reflexivity.
Qed.

Lemma handlePhotoUpload_refreshes
  (st : AppState) (fileOverride : option File) (f : File) (o1 o2 : FetchOutcome)
  (after : list Event) :
  truthy (selectedPatient (pat st)) = true ->
  canEditClinical (staffRole (auth st)) = true ->
  match fileOverride with Some g => Some g | None => photoFile (photo st) end = Some f ->
  fetches after = [] ->
  (forall s, summary (pat (apply_events s after)) = summary (pat s)) ->
  uploads_then_refreshes st f o1 o2
    (trace (handlePhotoUpload st fileOverride o1 o2) ++ after, inr tt).
Proof.
  intros Hsel Hrole Hf Hafter Hkeep.
  rewrite (handlePhotoUpload_trace st fileOverride f o1 o2 Hsel Hrole Hf).
  assert (Hfetch : forall t, fetches (t ++ after) = fetches t).
  { induction t as [| [u | r | m |] t IH]; cbn; rewrite ?IH; auto. }
  unfold uploads_then_refreshes, trace, run, trace. cbn [fst].
  rewrite Hfetch. split.
  - eexists. cbn. reflexivity.
  - intros updated H1. rewrite H1. split.
    + destruct (fulfilled o2); destruct fileOverride; reflexivity.
    + intros freshSummary H2. rewrite H2. unfold apply_events.
      rewrite fold_left_app. unfold apply_events in Hkeep. rewrite Hkeep.
      destruct fileOverride; reflexivity.
Qed.

(** C8: with a patient selected and a role that may edit, the Upload
    Photo button (for the file held from the picker) and the camera's
    capture (for the captured file) both run [handlePhotoUpload], which
    makes the one upload call with the image; the requests made are the
    same for the same image; when the upload succeeds the summary is
    fetched again and the stored summary is replaced by the fetched
    record. *)
Theorem photo_change_paths (st : AppState) (f : File) (o1 o2 : FetchOutcome) :
  truthy (selectedPatient (pat st)) = true ->
  canEditClinical (staffRole (auth st)) = true ->
  (photoFile (photo st) = Some f ->
   trace (uploadPhotoClick st o1 o2) = trace (handlePhotoUpload st None o1 o2)
   /\ uploads_then_refreshes st f o1 o2 (uploadPhotoClick st o1 o2)
   /\ fetches (trace (uploadPhotoClick st o1 o2))
      = fetches (trace (cameraOnCapture st f o1 o2)))
  /\ trace (cameraOnCapture st f o1 o2)
     = trace (handlePhotoUpload st (Some f) o1 o2) ++ [Call (setShowCamera false)]
  /\ uploads_then_refreshes st f o1 o2 (cameraOnCapture st f o1 o2).
Proof.
  intros Hsel Hrole.
  assert (Hpick : trace (uploadPhotoClick st o1 o2)
                  = trace (handlePhotoUpload st None o1 o2) ++ []).
  { unfold uploadPhotoClick, async, bind, trace. cbn. reflexivity. }
  assert (Hcam : trace (cameraOnCapture st f o1 o2)
                 = trace (handlePhotoUpload st (Some f) o1 o2)
                   ++ [Call (setShowCamera false)]).
  { unfold cameraOnCapture, async, bind, trace. cbn. reflexivity. }
  assert (Hp : forall (h : M unit) t, trace h = t ->
               uploads_then_refreshes st f o1 o2 (t, inr tt) ->
               uploads_then_refreshes st f o1 o2 h).
  { intros h t Ht H. unfold uploads_then_refreshes, run in *. rewrite Ht. exact H. }
  split; [| split; [exact Hcam |]].
  - intros Hfile. split; [now rewrite Hpick, app_nil_r |]. split.
    + apply (Hp _ _ Hpick).
      apply handlePhotoUpload_refreshes; auto.
    + rewrite Hpick, Hcam, app_nil_r.
      rewrite (handlePhotoUpload_trace st None f o1 o2 Hsel Hrole Hfile).
      rewrite (handlePhotoUpload_trace st (Some f) f o1 o2 Hsel Hrole eq_refl).
      unfold trace. cbn [fst].
      destruct (fulfilled o1); destruct (fulfilled o2); reflexivity.
  - apply (Hp _ _ Hcam).
    apply handlePhotoUpload_refreshes; auto.
Qed.

Lemma photo_change_paths_witness :
  uploads_then_refreshes jane_with_picked_file capture_file (served jane) (served john)
    (uploadPhotoClick jane_with_picked_file (served jane) (served john))
  /\ uploads_then_refreshes jane_with_picked_file capture_file (served jane) (served john)
    (cameraOnCapture jane_with_picked_file capture_file (served jane) (served john)).
Proof.
  destruct (photo_change_paths jane_with_picked_file capture_file (served jane) (served john)
              eq_refl eq_refl) as (Hpick & _ & Hcam).
  split; [apply (Hpick eq_refl) | exact Hcam].
Defined.

(** ** Capturing a still frame *)

(** C5: with a video element mounted, the canvas that is encoded has the
    native size of the stream, each dimension replaced by its default
    (640 wide, 480 high) when it is reported as zero; the encoding
    requested is JPEG at quality 0.9, and the blob the encoder delivers
    is handed to [onCapture] as the file [camera_capture.jpg] of type
    [image/jpeg].  (When the encoder delivers no blob, [onCapture] is
    not called.) *)
Theorem capture_still_frame (video : Video) :
  exists file,
    handleCaptureClick (Some video) true = Some file
    /\ image_size file
       = Some (if videoWidth video =? 0 then 640 else videoWidth video,
               if videoHeight video =? 0 then 480 else videoHeight video)
    /\ (videoWidth video <> 0 -> videoHeight video <> 0 ->
        image_size file = Some (videoWidth video, videoHeight video))
    /\ (videoWidth video = 0 -> videoHeight video = 0 ->
        image_size file = Some (640, 480))
    /\ image_encoding file = Some (lit "image/jpeg", 9 # 10)
    /\ file_name file = lit "camera_capture.jpg"
    /\ file_type file = lit "image/jpeg".
Proof.
  eexists. split; [reflexivity |]. cbn. unfold or_default.
  split; [reflexivity |]. split; [| split].
  - intros Hw Hh. apply N.eqb_neq in Hw, Hh. rewrite Hw, Hh. reflexivity.
  - intros -> ->. reflexivity.
  - repeat split.
Qed.

Lemma capture_still_frame_witness :
  (exists file,
     handleCaptureClick (Some (mkVideo 1280 720 0)) true = Some file
     /\ image_size file = Some (1280, 720)
     /\ image_encoding file = Some (lit "image/jpeg", 9 # 10))
  /\ (exists file,
     handleCaptureClick (Some (mkVideo 0 0 0)) true = Some file
     /\ image_size file = Some (640, 480)).
Proof.
  split.
  - destruct (capture_still_frame (mkVideo 1280 720 0))
      as (file & Hf & _ & Hsize & _ & Henc & _).
    exists file. split; [exact Hf |]. split; [| exact Henc].
    apply Hsize; cbn; discriminate.
  - destruct (capture_still_frame (mkVideo 0 0 0))
      as (file & Hf & _ & _ & Hsize & _).
    exists file. split; [exact Hf |]. apply Hsize; reflexivity.
Defined.

(** ** The camera stream *)

(** What holds of every switch: the stream held in [streamRef] has all
    its tracks stopped and the reference is emptied before the request
    for the new stream is made. *)
Lemma switch_releases_held_stream (st : CameraCapture.State) (mode : jsstring) :
  CameraCapture.mounted st = true ->
  jsstring_eqb mode (CameraCapture.facingMode st) = false ->
  let st' := CameraCapture.step st (CameraCapture.SetFacingMode mode) in
  CameraCapture.streamRef st' = None
  /\ (forall s t, CameraCapture.streamRef st = Some s ->
        In t (CameraCapture.getTracks s) -> In t (CameraCapture.stopped st'))
  /\ exists stops,
       CameraCapture.log st'
         = CameraCapture.log st ++ stops ++ [CameraCapture.GetUserMedia mode]
       /\ forall e, In e stops -> exists t, e = CameraCapture.TrackStop t.
Proof.
  intros Hm Hmode. cbn. rewrite Hm, Hmode. cbn.
  unfold CameraCapture.startCamera, CameraCapture.cleanup. cbn.
  destruct (CameraCapture.streamRef st) as [s |]; cbn.
  - split; [reflexivity |]. split.
    + intros s' t [= <-] Ht. rewrite !in_app_iff. auto.
    + exists (map CameraCapture.TrackStop (CameraCapture.getTracks s)
              ++ map CameraCapture.TrackStop (CameraCapture.getTracks s)).
      rewrite <- !app_assoc. split; [reflexivity |].
      intros e He. rewrite in_app_iff, !in_map_iff in He.
      destruct He as [(t & <- & _) | (t & <- & _)]; eauto.
  - split; [reflexivity |]. split; [intros s t H; discriminate |].
    exists []. split; [reflexivity | intros e []].
Qed.

(** What holds of a failed acquisition when it is the only one under
    way: the message is set and no stream is held. *)
Lemma lone_failure_holds_nothing (st : CameraCapture.State) (r : nat) (reason : jsstring) :
  CameraCapture.mounted st = true ->
  CameraCapture.pending st = [r] ->
  CameraCapture.streamRef st = None ->
  let st' := CameraCapture.step st (CameraCapture.Settle r (inl reason)) in
  CameraCapture.error st' = camera_error
  /\ CameraCapture.streamRef st' = None
  /\ CameraCapture.pending st' = [].
Proof.
  intros Hm Hp Hs. cbv zeta.
  unfold CameraCapture.step, CameraCapture.is_pending, CameraCapture.remove_request,
    CameraCapture.startCamera_resume.
  rewrite Hp.
  cbn [existsb filter CameraCapture.mounted CameraCapture.streamRef CameraCapture.error
       CameraCapture.pending].
  rewrite Nat.eqb_refl, Hm. cbn. auto.
Qed.

(** C6 (the code departs from it): when the facing mode is switched
    while the first [getUserMedia] is still awaited, nothing is stopped
    (no stream is held yet) and both requests are under way.  If both
    deliver a stream, the two streams are live at once and the first is
    never stopped, not even on unmount; if the second fails, the error
    message is shown while the stream of the first request is held. *)
Theorem switch_while_requesting_leaks_stream :
  let both := CameraCapture.steps CameraCapture.initial
                (switch_while_requesting
                 ++ [CameraCapture.Settle 1 (inr back_stream)]) in
  let failed := CameraCapture.steps CameraCapture.initial
                  (switch_while_requesting
                   ++ [CameraCapture.Settle 1 (inl (lit "NotFoundError"))]) in
  CameraCapture.log both
    = [CameraCapture.GetUserMedia (lit "user");
       CameraCapture.GetUserMedia (lit "environment");
       CameraCapture.Play front_stream;
       CameraCapture.Play back_stream]
  /\ CameraCapture.live_streams both = [front_stream; back_stream]
  /\ CameraCapture.streamRef both = Some back_stream
  /\ CameraCapture.live_streams (CameraCapture.step both CameraCapture.Unmount)
     = [front_stream]
  /\ CameraCapture.error failed = camera_error
  /\ CameraCapture.streamRef failed = Some front_stream
  /\ CameraCapture.live_streams failed = [front_stream].
Proof. cbv zeta. repeat split. Qed.

(** * Further properties of the handlers *)

Lemma jsstring_eqb_eq (a b : jsstring) : jsstring_eqb a b = true <-> a = b.
Proof.
  revert b. induction a as [| x a IH]; destruct b as [| y b]; cbn;
    try (split; intros H; (reflexivity || discriminate)).
  rewrite andb_true_iff, N.eqb_eq, IH. split.
  - intros [-> ->]. reflexivity.
  - intros [= -> ->]. auto.
Qed.

(** ** Searching *)

(** The calls [handleSearch] makes, in order, whatever the state and the
    outcome. *)
Lemma handleSearch_trace (st : AppState) (out : FetchOutcome) :
  handleSearch st out =
    ([PreventDefault; Call (setError []); Call (setLoading true);
      Call (setSelectedPatient JNull); Call (setSummary JNull);
      Call (setEncounters (JArr [])); Call (setMedications (JArr []));
      Call (setAllergies (JArr [])); Call (setVitalsLabs (JArr []));
      Call (setActiveTab (lit "summary")); Fetch (search_request st)]
     ++ match fulfilled out with
        | Some results =>
            Call (setPatients results)
            :: (if nullish results then [Call (setError search_error)]
                else if strict_eq_zero (member results (lit "length"))
                     then [Call (setError no_patients_found)] else [])
        | None => [Call (setError search_error)]
        end
     ++ [Call (setLoading false)],
     inr tt).
Proof.
  unfold handleSearch. api_calls. fold (search_request st).
  destruct (fulfilled out) as [results |] eqn:E; settle_with E; [| reflexivity].
  destruct results as [| | b | n | s | l | fs]; cbn;
    repeat match goal with
    | |- context [if ?b then _ else _] => destruct b
    end; reflexivity.
Qed.

(** X1: after a search the loading flag is off and the summary tab is
    active; an array answer replaces the result list and sets the
    message [No patients found] exactly when the array is empty; a
    failed search keeps the previous result list and sets the message
    [Error searching patients]; a [null] answer is stored as the result
    list before reading its length fails and the same message is set. *)
Theorem search_result_handling (st : AppState) (out : FetchOutcome) :
  let st' := run st (handleSearch st out) in
  loading (pat st') = false
  /\ activeTab (pat st') = lit "summary"
  /\ (forall l, fulfilled out = Some (JArr l) ->
      patients (pat st') = JArr l
      /\ error (pat st') = match l with [] => no_patients_found | _ :: _ => [] end)
  /\ (fulfilled out = None ->
      patients (pat st') = patients (pat st) /\ error (pat st') = search_error)
  /\ (fulfilled out = Some JNull ->
      patients (pat st') = JNull /\ error (pat st') = search_error).
Proof.
  cbv zeta. rewrite handleSearch_trace. split; [| split; [| split; [| split]]].
  - destruct (fulfilled out) as [results |]; [| reflexivity].
    destruct (nullish results); [reflexivity |].
    destruct (strict_eq_zero _); reflexivity.
  - destruct (fulfilled out) as [results |]; [| reflexivity].
    destruct (nullish results); [reflexivity |].
    destruct (strict_eq_zero _); reflexivity.
  - intros l ->. destruct l; split; reflexivity.
  - intros ->. split; reflexivity.
  - intros ->. split; reflexivity.
Qed.

Lemma search_result_handling_witness :
  patients (pat (run jane_loaded (handleSearch jane_loaded (served (JArr []))))) = JArr []
  /\ error (pat (run jane_loaded (handleSearch jane_loaded (served (JArr [])))))
     = no_patients_found
  /\ patients (pat (run jane_loaded (handleSearch jane_loaded unavailable)))
     = patients (pat jane_loaded)
  /\ patients (pat (run jane_loaded (handleSearch jane_loaded (served JNull)))) = JNull.
Proof.
  destruct (search_result_handling jane_loaded (served (JArr []))) as (_ & _ & H & _).
  destruct (H [] eq_refl) as [H1 H2].
  destruct (search_result_handling jane_loaded unavailable) as (_ & _ & _ & H3 & _).
  destruct (search_result_handling jane_loaded (served JNull)) as (_ & _ & _ & _ & H4).
  split; [exact H1 |]. split; [exact H2 |].
  split; [exact (proj1 (H3 eq_refl)) | exact (proj1 (H4 eq_refl))].
Defined.

(** X2: a search issues one GET request without body; its query holds
    the trimmed name under [name] when it is not empty, then the trimmed
    date of birth under [date_of_birth] when it is not empty; criteria
    made of white space only send no parameter at all. *)
Theorem search_sends_trimmed_criteria (st : AppState) (out : FetchOutcome) :
  exists r,
    fetches (trace (handleSearch st out)) = [r]
    /\ req_method r = GET /\ req_body r = NoBody
    /\ search_params r
       = match trim (name (pat st)) with
         | [] => []
         | _ :: _ => [(lit "name", trim (name (pat st)))]
         end
         ++ match trim (dob (pat st)) with
            | [] => []
            | _ :: _ => [(lit "date_of_birth", trim (dob (pat st)))]
            end
    /\ (forallb isWhiteSpace (name (pat st)) = true ->
        forallb isWhiteSpace (dob (pat st)) = true ->
        search_params r = []).
Proof.
  exists (search_request st). rewrite handleSearch_trace. split.
  - unfold trace. cbn [fst].
    destruct (fulfilled out) as [results |]; [| reflexivity].
    destruct (nullish results); [reflexivity |].
    destruct (strict_eq_zero _); reflexivity.
  - unfold search_request, request_of, search_params. cbn.
    split; [reflexivity |]. split; [reflexivity |]. split.
    + destruct (trim (name (pat st))); destruct (trim (dob (pat st))); reflexivity.
    + intros Hn Hd. apply trim_nil_iff in Hn, Hd. rewrite Hn, Hd. reflexivity.
Qed.

Lemma search_sends_trimmed_criteria_witness :
  exists r,
    fetches (trace (handleSearch blank_search (served (JArr [])))) = [r]
    /\ search_params r = [].
Proof.
  destruct (search_sends_trimmed_criteria blank_search (served (JArr [])))
    as (r & Hr & _ & _ & _ & H).
  exists r. split; [exact Hr | apply H; reflexivity].
Defined.

(** ** Selecting a patient *)

(** X3: when the patient's identifier can be read, the five detail
    requests are issued, in the order summary, encounters, medications,
    allergies, vitals/labs and for that identifier, whatever the
    outcomes: a failure of one does not hold back the others.  When
    all five are fulfilled the five slots hold the five results, the
    patient is selected, the error message is empty, the summary tab is
    active and the loading flag is off. *)
Theorem details_loaded_together
  (st : AppState) (patient : JsVal) (o1 o2 o3 o4 o5 : FetchOutcome) :
  nullish patient = false ->
  let h := loadDetails st patient o1 o2 o3 o4 o5 in
  fetches (trace h) = detail_requests patient
  /\ (forall s e meds alls vitLabs,
        fulfilled o1 = Some s -> fulfilled o2 = Some e -> fulfilled o3 = Some meds ->
        fulfilled o4 = Some alls -> fulfilled o5 = Some vitLabs ->
        detail_slots (run st h) = (s, e, meds, alls, vitLabs)
        /\ selectedPatient (pat (run st h)) = patient
        /\ error (pat (run st h)) = []
        /\ activeTab (pat (run st h)) = lit "summary"
        /\ loading (pat (run st h)) = false
        /\ filter is_error_message (trace h) = []).
Proof.
  intros Hp h. subst h. rewrite (loadDetails_trace _ _ _ _ _ _ _ Hp). split.
  - unfold trace. cbn [fst].
    destruct (all_fulfilled o1 o2 o3 o4 o5) as [[[[[s e] meds] alls] vitLabs] |];
      reflexivity.
  - intros s e meds alls vitLabs H1 H2 H3 H4 H5.
    unfold all_fulfilled. rewrite H1, H2, H3, H4, H5. repeat split.
Qed.

Lemma details_loaded_together_witness :
  let h := loadDetails initialState jane (served jane) (served (JArr [JNum 1]))
             (served (JArr [JNum 2])) (served (JArr [JNum 3])) (served (JArr [JNum 4])) in
  fetches (trace h) = detail_requests jane
  /\ detail_slots (run initialState h)
     = (jane, JArr [JNum 1], JArr [JNum 2], JArr [JNum 3], JArr [JNum 4]).
Proof.
  destruct (details_loaded_together initialState jane (served jane) (served (JArr [JNum 1]))
              (served (JArr [JNum 2])) (served (JArr [JNum 3])) (served (JArr [JNum 4]))
              eq_refl) as [Hf H].
  split; [exact Hf |].
  exact (proj1 (H jane (JArr [JNum 1]) (JArr [JNum 2]) (JArr [JNum 3]) (JArr [JNum 4])
                 eq_refl eq_refl eq_refl eq_refl eq_refl)).
Defined.

(** ** Adding an encounter *)

(** The calls [handleCreateEncounter] makes once its three checks are
    passed, in order. *)
Lemma handleCreateEncounter_trace (st : AppState) (o1 o2 : FetchOutcome) :
  submittable st ->
  handleCreateEncounter st o1 o2 =
    ([PreventDefault; Fetch (create_request st)]
     ++ match fulfilled o1 with
        | Some _ =>
            Fetch (list_request st)
            :: match fulfilled o2 with
               | Some updated =>
                   [Call (setEncounters updated); Call (setNewEncounterComplaint []);
                    Call (setNewEncounterDoctor []); Call (setNewEncounterType (lit "A&E"))]
               | None => [Alert encounter_failed]
               end
        | None => [Alert encounter_failed]
        end,
     inr tt).
Proof.
  intros Hs. rewrite (handleCreateEncounter_submittable st o1 o2 Hs).
  destruct (fulfilled o1) as [v1 |] eqn:E1; settle_with E1;
    [destruct (fulfilled o2) as [v2 |] eqn:E2; settle_with E2 |];
    try reflexivity;
    destruct (settle (CallGetPatientEncounters _) o2); reflexivity.
Qed.

(** The ways a submission goes: refused for the role, dropped for want
    of a selected patient, refused for the complaint, or submitted. *)
Lemma handleCreateEncounter_cases (st : AppState) (o1 o2 : FetchOutcome) :
  (canEditClinical (staffRole (auth st)) = false
   /\ handleCreateEncounter st o1 o2 = ([PreventDefault; Alert read_only_message], inr tt))
  \/ (truthy (selectedPatient (pat st)) = false
      /\ handleCreateEncounter st o1 o2 = ([PreventDefault], inr tt))
  \/ (truthy_str (trim (newEncounterComplaint (form st))) = false
      /\ handleCreateEncounter st o1 o2
         = ([PreventDefault; Alert (lit "Enter presenting complaint")], inr tt))
  \/ submittable st.
Proof.
  unfold submittable, handleCreateEncounter.
  destruct (canEditClinical (staffRole (auth st))); [| left; auto].
  destruct (truthy (selectedPatient (pat st))); [| right; left; auto].
  destruct (truthy_str (trim (newEncounterComplaint (form st))));
    [| right; right; left; auto].
  right; right; right. auto.
Qed.

(** X4: when the create call and the re-fetch both succeed, the form
    is reset (type [A&E], empty complaint and doctor name), the stored
    encounters are the re-fetched list and nothing is alerted. *)
Theorem encounter_added_resets_form
  (st : AppState) (o1 o2 : FetchOutcome) (created updated : JsVal) :
  submittable st ->
  fulfilled o1 = Some created -> fulfilled o2 = Some updated ->
  let h := handleCreateEncounter st o1 o2 in
  form (run st h) = mkForm (lit "A&E") [] []
  /\ encounters (pat (run st h)) = updated
  /\ filter is_alert (trace h) = [].
Proof.
  intros Hs H1 H2 h. subst h.
  rewrite (handleCreateEncounter_trace st o1 o2 Hs), H1, H2. repeat split.
Qed.

Lemma encounter_added_resets_form_witness :
  let h := handleCreateEncounter clinician_with_patient
             (served (JObj [])) (served (JArr [JObj []])) in
  form (run clinician_with_patient h) = mkForm (lit "A&E") [] []
  /\ encounters (pat (run clinician_with_patient h)) = JArr [JObj []]
  /\ filter is_alert (trace h) = [].
Proof.
  apply (encounter_added_resets_form clinician_with_patient
           (served (JObj [])) (served (JArr [JObj []])) (JObj []) (JArr [JObj []]));
    repeat split.
Defined.

(** X5: when the create call or the re-fetch fails, [Failed to add
    encounter] is alerted once and the state is left as it was, the
    form included.  This is so also when the create call has succeeded
    and only the re-fetch fails: the encounter exists on the server, the
    user is told it was not added and the form still holds it. *)
Theorem encounter_failure_keeps_form (st : AppState) (o1 o2 : FetchOutcome) :
  submittable st ->
  fulfilled o1 = None \/ fulfilled o2 = None ->
  let h := handleCreateEncounter st o1 o2 in
  filter is_alert (trace h) = [Alert encounter_failed]
  /\ run st h = st
  /\ (forall created, fulfilled o1 = Some created ->
      fetches (trace h) = [create_request st; list_request st]).
Proof.
  intros Hs Hfail h. subst h.
  rewrite (handleCreateEncounter_trace st o1 o2 Hs).
  destruct st as [a p f ph]; destruct a, p, f, ph.
  destruct Hfail as [H | H]; rewrite H.
  - repeat split. intros created Hc. discriminate.
  - destruct (fulfilled o1); repeat split. intros created Hc. discriminate.
Qed.

Lemma encounter_failure_keeps_form_witness :
  let h := handleCreateEncounter clinician_with_patient (served (JObj [])) unavailable in
  filter is_alert (trace h) = [Alert encounter_failed]
  /\ run clinician_with_patient h = clinician_with_patient
  /\ fetches (trace h)
     = [create_request clinician_with_patient; list_request clinician_with_patient].
Proof.
  destruct (encounter_failure_keeps_form clinician_with_patient (served (JObj [])) unavailable)
    as (Ha & Hr & Hf).
  - repeat split.
  - right. reflexivity.
  - split; [exact Ha |]. split; [exact Hr | exact (Hf (JObj []) eq_refl)].
Defined.

(** X6: the create request is a POST to the encounters of the selected
    patient, declared as JSON, whose body holds the encounter type as
    selected and the presenting complaint as entered: the complaint is
    trimmed for the check only, not in what is sent. *)
Theorem encounter_payload_as_entered (st : AppState) (o1 o2 : FetchOutcome) :
  submittable st ->
  exists payload rest,
    fetches (trace (handleCreateEncounter st o1 o2))
      = mkRequest POST (PatientUrl (member (selectedPatient (pat st)) patient_id) REncounters)
          [(lit "Content-Type", lit "application/json")] (JsonBody payload) :: rest
    /\ member payload (lit "encounter_type") = JStr (newEncounterType (form st))
    /\ member payload (lit "presenting_complaint") = JStr (newEncounterComplaint (form st)).
Proof.
  intros Hs. rewrite (handleCreateEncounter_trace st o1 o2 Hs).
  exists (encounter_payload (form st)). eexists. split; [reflexivity |].
  split; reflexivity.
Qed.

Lemma encounter_payload_as_entered_witness :
  exists payload rest,
    fetches (trace (handleCreateEncounter padded_complaint unavailable unavailable))
      = mkRequest POST (PatientUrl (JNum 1) REncounters)
          [(lit "Content-Type", lit "application/json")] (JsonBody payload) :: rest
    /\ member payload (lit "encounter_type") = JStr (lit "Ward")
    /\ member payload (lit "presenting_complaint") = JStr (lit "  Fever ").
Proof.
  apply (encounter_payload_as_entered padded_complaint unavailable unavailable).
  repeat split.
Defined.

(** ** Changing the photo *)

(** The ways [handlePhotoUpload] goes: dropped without a word when no
    patient is selected or there is no image, refused for the role, or
    carried out with the image [f]. *)
Lemma handlePhotoUpload_cases
  (st : AppState) (fileOverride : option File) (o1 o2 : FetchOutcome) :
  ((truthy (selectedPatient (pat st)) = false \/ file_to_use st fileOverride = None)
   /\ handlePhotoUpload st fileOverride o1 o2 = ret tt)
  \/ (canEditClinical (staffRole (auth st)) = false
      /\ handlePhotoUpload st fileOverride o1 o2 = alert photo_read_only)
  \/ (exists f, truthy (selectedPatient (pat st)) = true
                /\ canEditClinical (staffRole (auth st)) = true
                /\ file_to_use st fileOverride = Some f).
Proof.
  unfold handlePhotoUpload. fold (file_to_use st fileOverride).
  destruct (truthy (selectedPatient (pat st))).
  - destruct (file_to_use st fileOverride) as [f |].
    + destruct (canEditClinical (staffRole (auth st))).
      * right; right. exists f. auto.
      * right; left. auto.
    + left. auto.
  - left. split; [auto |]. destruct (file_to_use st fileOverride); reflexivity.
Qed.

(** X7: [handlePhotoUpload] does nothing at all (no call, no alert, no
    request) when no patient is selected or when there is neither a
    captured nor a picked image, whatever the role; with a patient and
    an image but a role without the capability it alerts the read-only
    message and makes no request; in both cases the state is unchanged. *)
Theorem photo_upload_guards
  (st : AppState) (fileOverride : option File) (o1 o2 : FetchOutcome) :
  let h := handlePhotoUpload st fileOverride o1 o2 in
  (truthy (selectedPatient (pat st)) = false \/ file_to_use st fileOverride = None ->
   trace h = [])
  /\ (truthy (selectedPatient (pat st)) = true ->
      file_to_use st fileOverride <> None ->
      canEditClinical (staffRole (auth st)) = false ->
      trace h = [Alert photo_read_only] /\ fetches (trace h) = [] /\ run st h = st).
Proof.
  cbv zeta. unfold handlePhotoUpload. fold (file_to_use st fileOverride). split.
  - intros [H | H]; rewrite H; [reflexivity |].
    destruct (truthy (selectedPatient (pat st))); reflexivity.
  - intros Hsel Hfile Hrole. rewrite Hsel, Hrole.
    destruct (file_to_use st fileOverride) as [f |]; [| congruence].
    destruct st as [a p f' ph]; destruct a, p, f', ph. repeat split.
Qed.

Lemma photo_upload_guards_witness :
  trace (handlePhotoUpload initialState (Some capture_file) (served jane) (served jane)) = []
  /\ trace (handlePhotoUpload policy_maker_with_patient (Some capture_file)
              (served jane) (served jane)) = [Alert photo_read_only].
Proof.
  split.
  - apply (photo_upload_guards initialState (Some capture_file) (served jane) (served jane)).
    left. reflexivity.
  - apply (photo_upload_guards policy_maker_with_patient (Some capture_file)
             (served jane) (served jane)); [reflexivity | discriminate | reflexivity].
Defined.

(** X8: once the checks are passed, a failure of the upload or of the
    summary re-fetch alerts [Failed to upload photo] once and changes
    nothing but the uploading flag, which ends off: the summary is kept
    and the picked file stays in place for another try.  When only the
    re-fetch fails both requests have been made. *)
Theorem photo_failure_keeps_state
  (st : AppState) (fileOverride : option File) (f : File) (o1 o2 : FetchOutcome) :
  truthy (selectedPatient (pat st)) = true ->
  canEditClinical (staffRole (auth st)) = true ->
  file_to_use st fileOverride = Some f ->
  fulfilled o1 = None \/ fulfilled o2 = None ->
  let h := handlePhotoUpload st fileOverride o1 o2 in
  filter is_alert (trace h) = [Alert upload_failed]
  /\ run st h = apply_setter st (setUploadingPhoto false)
  /\ (forall uploaded, fulfilled o1 = Some uploaded ->
      fetches (trace h) = [upload_request st f; summary_request st]).
Proof.
  intros Hsel Hrole Hf Hfail h. subst h.
  rewrite (handlePhotoUpload_trace st fileOverride f o1 o2 Hsel Hrole Hf).
  destruct st as [a p fm ph]; destruct a, p, fm, ph.
  destruct Hfail as [H | H]; rewrite H.
  - repeat split. intros uploaded Hu. discriminate.
  - destruct (fulfilled o1); repeat split. intros uploaded Hu. discriminate.
Qed.

Lemma photo_failure_keeps_state_witness :
  let h := handlePhotoUpload jane_with_picked_file None (served jane) unavailable in
  filter is_alert (trace h) = [Alert upload_failed]
  /\ photoFile (photo (run jane_with_picked_file h)) = Some capture_file
  /\ summary (pat (run jane_with_picked_file h)) = jane.
Proof.
  destruct (photo_failure_keeps_state jane_with_picked_file None capture_file
              (served jane) unavailable eq_refl eq_refl eq_refl (or_intror eq_refl))
    as (Ha & Hr & _).
  split; [exact Ha |]. rewrite Hr. split; reflexivity.
Defined.

(** X9: once the checks are passed and both calls succeed, the stored
    summary is the re-fetched record, nothing is alerted and the
    uploading flag ends off; the picked file is cleared when the upload
    came from the Upload button and is left in place when it came from
    the camera; nothing else changes. *)
Theorem photo_success_updates_summary
  (st : AppState) (fileOverride : option File) (f : File) (o1 o2 : FetchOutcome)
  (uploaded freshSummary : JsVal) :
  truthy (selectedPatient (pat st)) = true ->
  canEditClinical (staffRole (auth st)) = true ->
  file_to_use st fileOverride = Some f ->
  fulfilled o1 = Some uploaded -> fulfilled o2 = Some freshSummary ->
  let h := handlePhotoUpload st fileOverride o1 o2 in
  filter is_alert (trace h) = []
  /\ pat (run st h) = apply_pat (setSummary freshSummary) (pat st)
  /\ photo (run st h)
     = mkPhoto (match fileOverride with None => None | Some _ => photoFile (photo st) end)
         false (showCamera (photo st))
  /\ auth (run st h) = auth st /\ form (run st h) = form st.
Proof.
  intros Hsel Hrole Hf H1 H2 h. subst h.
  rewrite (handlePhotoUpload_trace st fileOverride f o1 o2 Hsel Hrole Hf), H1, H2.
  destruct st as [a p fm ph]; destruct a, p, fm, ph.
  destruct fileOverride; repeat split.
Qed.

Lemma photo_success_updates_summary_witness :
  let picked := handlePhotoUpload jane_with_picked_file None (served jane) (served john) in
  let captured := handlePhotoUpload jane_with_picked_file (Some capture_file)
                    (served jane) (served john) in
  summary (pat (run jane_with_picked_file picked)) = john
  /\ photoFile (photo (run jane_with_picked_file picked)) = None
  /\ photoFile (photo (run jane_with_picked_file captured)) = Some capture_file.
Proof.
  destruct (photo_success_updates_summary jane_with_picked_file None capture_file
              (served jane) (served john) jane john eq_refl eq_refl eq_refl eq_refl eq_refl)
    as (_ & Hp & Hph & _).
  destruct (photo_success_updates_summary jane_with_picked_file (Some capture_file)
              capture_file (served jane) (served john) jane john
              eq_refl eq_refl eq_refl eq_refl eq_refl)
    as (_ & _ & Hph' & _).
  cbv zeta. rewrite Hp, Hph, Hph'. repeat split.
Defined.


(** The first request of a photo upload that passes the checks is the
    upload of the image, whatever follows it. *)
Lemma upload_is_first_request
  (st : AppState) (fileOverride : option File) (f : File) (o1 o2 : FetchOutcome)
  (after : list Event) :
  truthy (selectedPatient (pat st)) = true ->
  canEditClinical (staffRole (auth st)) = true ->
  file_to_use st fileOverride = Some f ->
  exists rest,
    fetches (trace (handlePhotoUpload st fileOverride o1 o2) ++ after)
    = upload_request st f :: rest.
Proof.
  intros Hsel Hrole Hf.
  rewrite (handlePhotoUpload_trace st fileOverride f o1 o2 Hsel Hrole Hf).
  unfold trace. cbn. eexists. reflexivity.
Qed.

(** ** All handlers *)

(** Case analysis on what the four handlers do. *)
Ltac handler_cases st patient fileOverride o1 o2 o3 o4 o5 :=
  rewrite (handleSearch_trace st o1);
  let Hn := fresh "Hnullish" in
  destruct (nullish patient) eqn:Hn;
  [rewrite (loadDetails_nullish st patient o1 o2 o3 o4 o5 Hn)
  |rewrite (loadDetails_trace st patient o1 o2 o3 o4 o5 Hn)];
  (let f := fresh "f" in
   let Hsel := fresh "Hsel" in
   let Hrole := fresh "Hrole" in
   let Hf := fresh "Hfile" in
   let E := fresh "Hupload" in
   destruct (handlePhotoUpload_cases st fileOverride o1 o2)
     as [[_ E] | [[_ E] | (f & Hsel & Hrole & Hf)]];
   [rewrite E | rewrite E
   |rewrite (handlePhotoUpload_trace st fileOverride f o1 o2 Hsel Hrole Hf)]);
  (let Hs := fresh "Hsub" in
   let E := fresh "Hcreate" in
   destruct (handleCreateEncounter_cases st o1 o2)
     as [[_ E] | [[_ E] | [[_ E] | Hs]]];
   [rewrite E | rewrite E | rewrite E
   |rewrite (handleCreateEncounter_trace st o1 o2 Hs)]).

(** X10: no error escapes a handler: whatever the state, the patient
    clicked, the image and the outcomes of the network calls, the four
    handlers end normally, every failure having been turned into a
    message. *)
Theorem handlers_end_normally
  (st : AppState) (patient : JsVal) (fileOverride : option File)
  (o1 o2 o3 o4 o5 : FetchOutcome) :
  outcome (handleSearch st o1) = inr tt
  /\ outcome (loadDetails st patient o1 o2 o3 o4 o5) = inr tt
  /\ outcome (handlePhotoUpload st fileOverride o1 o2) = inr tt
  /\ outcome (handleCreateEncounter st o1 o2) = inr tt.
Proof.
  handler_cases st patient fileOverride o1 o2 o3 o4 o5; repeat split.
Qed.

(** X11: searching and selecting a patient only ever issue GET
    requests, and under a role without the capability the two mutation
    handlers issue no request at all: a read-only role never sends a
    POST. *)
Theorem read_only_role_never_posts
  (st : AppState) (patient : JsVal) (fileOverride : option File)
  (o1 o2 o3 o4 o5 : FetchOutcome) :
  forallb (fun r => negb (is_post r))
    (fetches (trace (handleSearch st o1))
     ++ fetches (trace (loadDetails st patient o1 o2 o3 o4 o5))) = true
  /\ (canEditClinical (staffRole (auth st)) = false ->
      fetches (trace (handlePhotoUpload st fileOverride o1 o2)) = []
      /\ fetches (trace (handleCreateEncounter st o1 o2)) = []).
Proof.
  split.
  - rewrite (handleSearch_trace st o1).
    destruct (nullish patient) eqn:Hn;
      [rewrite (loadDetails_nullish st patient o1 o2 o3 o4 o5 Hn)
      |rewrite (loadDetails_trace st patient o1 o2 o3 o4 o5 Hn)];
      unfold trace; cbn [fst];
      destruct (fulfilled o1) as [results |];
      try (destruct (nullish results); [| destruct (strict_eq_zero _)]);
      try (destruct (all_fulfilled o1 o2 o3 o4 o5) as [[[[[s e] meds] alls] vitLabs] |]);
      reflexivity.
  - intros Hrole. split.
    + destruct (handlePhotoUpload_cases st fileOverride o1 o2)
        as [[_ E] | [[_ E] | (f & _ & Hr & _)]]; [rewrite E | rewrite E | congruence];
        reflexivity.
    + destruct (handleCreateEncounter_cases st o1 o2)
        as [[_ E] | [[_ E] | [[_ E] | (Hr & _)]]];
        [rewrite E | rewrite E | rewrite E | congruence]; reflexivity.
Qed.

Lemma read_only_role_never_posts_witness :
  fetches (trace (handlePhotoUpload policy_maker_with_patient (Some capture_file)
                    (served jane) (served jane))) = []
  /\ fetches (trace (handleCreateEncounter policy_maker_with_patient
                       (served jane) (served jane))) = [].
Proof.
  apply (read_only_role_never_posts policy_maker_with_patient jane (Some capture_file)
           (served jane) (served jane) (served jane) (served jane) (served jane)).
  reflexivity.
Defined.

(** X12: none of the four handlers changes the session (token, role,
    role chosen on the login form); searching and selecting leave the
    encounter form and the photo state alone, a photo upload leaves the
    encounter form and the camera switch alone, and adding an encounter
    leaves the photo state alone. *)
Theorem handlers_leave_session_alone
  (st : AppState) (patient : JsVal) (fileOverride : option File)
  (o1 o2 o3 o4 o5 : FetchOutcome) :
  let searched := run st (handleSearch st o1) in
  let selected := run st (loadDetails st patient o1 o2 o3 o4 o5) in
  let uploaded := run st (handlePhotoUpload st fileOverride o1 o2) in
  let added := run st (handleCreateEncounter st o1 o2) in
  (auth searched = auth st /\ form searched = form st /\ photo searched = photo st)
  /\ (auth selected = auth st /\ form selected = form st /\ photo selected = photo st)
  /\ (auth uploaded = auth st /\ form uploaded = form st
      /\ showCamera (photo uploaded) = showCamera (photo st))
  /\ (auth added = auth st /\ photo added = photo st).
Proof.
  cbv zeta. handler_cases st patient fileOverride o1 o2 o3 o4 o5;
    destruct st as [a p fm ph]; destruct a, p, fm, ph;
    destruct (fulfilled o1) as [v1 |];
    try (destruct (nullish v1); [| destruct (strict_eq_zero _)]);
    try (destruct (all_fulfilled _ o2 o3 o4 o5) as [[[[[s e] meds] alls] vitLabs] |]);
    destruct (fulfilled o2) as [v2 |];
    destruct fileOverride;
    repeat split.
Qed.

(** X13: of the patient data, a search leaves the search criteria as
    typed, a selection leaves the criteria and the result list, a photo
    upload changes at most the summary, and adding an encounter changes
    at most the encounters. *)
Theorem handlers_touch_their_slots
  (st : AppState) (patient : JsVal) (fileOverride : option File)
  (o1 o2 o3 o4 o5 : FetchOutcome) :
  let searched := run st (handleSearch st o1) in
  let selected := run st (loadDetails st patient o1 o2 o3 o4 o5) in
  let uploaded := run st (handlePhotoUpload st fileOverride o1 o2) in
  let added := run st (handleCreateEncounter st o1 o2) in
  (name (pat searched) = name (pat st) /\ dob (pat searched) = dob (pat st))
  /\ (name (pat selected) = name (pat st) /\ dob (pat selected) = dob (pat st)
      /\ patients (pat selected) = patients (pat st))
  /\ pat uploaded = apply_pat (setSummary (summary (pat uploaded))) (pat st)
  /\ pat added = apply_pat (setEncounters (encounters (pat added))) (pat st).
Proof.
  cbv zeta. handler_cases st patient fileOverride o1 o2 o3 o4 o5;
    destruct st as [a p fm ph]; destruct a, p, fm, ph;
    destruct (fulfilled o1) as [v1 |];
    try (destruct (nullish v1); [| destruct (strict_eq_zero _)]);
    try (destruct (all_fulfilled _ o2 o3 o4 o5) as [[[[[s e] meds] alls] vitLabs] |]);
    destruct (fulfilled o2) as [v2 |];
    destruct fileOverride;
    repeat split.
Qed.

(** ** The session *)

(** X14: choosing a role on the login form and submitting it opens the
    session under that role, with the capability of that role; logging
    out brings the login screen back, empties the role, so that no
    capability is left, empties the result list and the selection, and
    keeps the role last chosen on the form. *)
Theorem login_then_logout (st : AppState) (role : jsstring) :
  let chosen := run st (loginRoleChange role) in
  let inside := run chosen (handleLogin chosen) in
  let outside := run inside logoutClick in
  (loginScreen inside = false
   /\ staffRole (auth inside) = role
   /\ pat inside = pat st)
  /\ (loginScreen outside = true
      /\ staffRole (auth outside) = []
      /\ canEditClinical (staffRole (auth outside)) = false
      /\ isPolicyMaker (staffRole (auth outside)) = false
      /\ loginRole (auth outside) = role
      /\ patients (pat outside) = JArr []
      /\ selectedPatient (pat outside) = JNull).
Proof. destruct st as [a p fm ph]; destruct a, p, fm, ph. repeat split. Qed.

(** ** What is on the page *)

Lemma policy_maker_cannot_edit (role : jsstring) :
  isPolicyMaker role = true -> canEditClinical role = false.
Proof.
  unfold isPolicyMaker, canEditClinical. intros H.
  apply jsstring_eqb_eq in H. subst role. reflexivity.
Qed.

(** X15: under the role [Policy maker], in every state, neither the
    encounter form, nor the upload controls, nor the camera are on the
    page; and whatever the role string, the policy maker's note and the
    upload controls are never rendered together. *)
Theorem policy_maker_sees_no_controls (st : AppState) :
  (isPolicyMaker (staffRole (auth st)) = true ->
   encounterForm st = false /\ uploadControls st = false /\ cameraShown st = false
   /\ uploadButtonEnabled st = false)
  /\ policyMakerNote st && uploadControls st = false.
Proof.
  split.
  - intros H. apply policy_maker_cannot_edit in H.
    unfold uploadButtonEnabled, cameraShown, encounterForm, uploadControls. rewrite H.
    rewrite !andb_false_r. auto.
  - unfold policyMakerNote, uploadControls.
    destruct (isPolicyMaker (staffRole (auth st))) eqn:H.
    + apply policy_maker_cannot_edit in H. rewrite H, !andb_false_r. reflexivity.
    + rewrite !andb_false_r. reflexivity.
Qed.

Lemma policy_maker_sees_no_controls_witness :
  encounterForm policy_maker_with_patient = false
  /\ uploadControls policy_maker_with_patient = false
  /\ cameraShown policy_maker_with_patient = false
  /\ uploadButtonEnabled policy_maker_with_patient = false.
Proof.
  apply (policy_maker_sees_no_controls policy_maker_with_patient). reflexivity.
Defined.

(** X16: the controls on the page always act.  A submission from a
    rendered encounter form is never refused for the role nor dropped
    for want of a patient: it either alerts the missing complaint or
    issues the create request.  A click on an enabled Upload Photo
    button issues the upload of the picked file, and a capture from a
    rendered camera issues the upload of the captured file. *)
Theorem rendered_controls_act (st : AppState) (captured : File) (o1 o2 : FetchOutcome) :
  (encounterForm st = true ->
   trace (handleCreateEncounter st o1 o2)
     = [PreventDefault; Alert (lit "Enter presenting complaint")]
   \/ exists rest, fetches (trace (handleCreateEncounter st o1 o2))
                   = create_request st :: rest)
  /\ (uploadButtonEnabled st = true ->
      exists f rest, photoFile (photo st) = Some f
        /\ fetches (trace (uploadPhotoClick st o1 o2)) = upload_request st f :: rest)
  /\ (cameraShown st = true ->
      exists rest, fetches (trace (cameraOnCapture st captured o1 o2))
                   = upload_request st captured :: rest).
Proof.
  split; [| split].
  - unfold encounterForm, encountersTab, detailsPanel. rewrite !andb_true_iff.
    intros [[[_ Hsel] _] Hrole].
    destruct (handleCreateEncounter_cases st o1 o2)
      as [[H _] | [[H _] | [[_ E] | Hs]]]; try congruence.
    + left. rewrite E. reflexivity.
    + right. rewrite (handleCreateEncounter_trace st o1 o2 Hs). eexists. reflexivity.
  - unfold uploadButtonEnabled, uploadControls, summaryTab, detailsPanel.
    rewrite !andb_true_iff.
    intros [[[[[_ Hsel] _] _] Hrole] Hfile].
    destruct (photoFile (photo st)) as [f |] eqn:Hf; [| discriminate].
    destruct (upload_is_first_request st None f o1 o2 [] Hsel Hrole Hf)
      as (rest & Hrest).
    exists f, rest. split; [reflexivity |].
    unfold uploadPhotoClick, async, bind, trace in *. cbn in *.
    rewrite app_nil_r in *. exact Hrest.
  - unfold cameraShown, uploadControls, summaryTab, detailsPanel.
    rewrite !andb_true_iff.
    intros [[[[[_ Hsel] _] _] Hrole] _].
    destruct (upload_is_first_request st (Some captured) captured o1 o2
                [Call (setShowCamera false)] Hsel Hrole eq_refl)
      as (rest & Hrest).
    exists rest. unfold cameraOnCapture, async, bind, trace in *. cbn in *. exact Hrest.
Qed.

Lemma rendered_controls_act_witness :
  (exists rest, fetches (trace (handleCreateEncounter clinician_with_patient
                                  unavailable unavailable))
                = create_request clinician_with_patient :: rest)
  /\ (exists f rest, photoFile (photo summary_tab_with_file) = Some f
        /\ fetches (trace (uploadPhotoClick summary_tab_with_file unavailable unavailable))
           = upload_request summary_tab_with_file f :: rest)
  /\ (exists rest, fetches (trace (cameraOnCapture summary_tab_with_file capture_file
                                     unavailable unavailable))
                   = upload_request summary_tab_with_file capture_file :: rest).
Proof.
  destruct (rendered_controls_act clinician_with_patient capture_file
              unavailable unavailable) as (H1 & _ & _).
  destruct (rendered_controls_act summary_tab_with_file capture_file
              unavailable unavailable) as (_ & H2 & H3).
  split; [| split; [exact (H2 eq_refl) | exact (H3 eq_refl)]].
  destruct (H1 eq_refl) as [H | H]; [| exact H].
  vm_compute in H. discriminate.
Defined.

(** X17: once logged in, after a selection whose five fetches succeed
    with a summary that is an object, the photo column shows the image
    when the summary has a non-empty [photo_path] and the [No photo]
    placeholder when [photo_path] is absent, [null] or empty. *)
Theorem photo_column_after_selection
  (st : AppState) (patient : JsVal) (o1 o2 o3 o4 o5 : FetchOutcome)
  (fields : list (jsstring * JsVal)) (e meds alls vitLabs : JsVal) :
  loginScreen st = false ->
  truthy patient = true ->
  fulfilled o1 = Some (JObj fields) -> fulfilled o2 = Some e ->
  fulfilled o3 = Some meds -> fulfilled o4 = Some alls -> fulfilled o5 = Some vitLabs ->
  photoColumn (run st (loadDetails st patient o1 o2 o3 o4 o5))
  = Some (if truthy (lookup_field (lit "photo_path") fields)
          then PhotoImage (lookup_field (lit "photo_path") fields)
          else NoPhoto).
Proof.
  intros Hlogin Hp H1 H2 H3 H4 H5.
  assert (Hn : nullish patient = false) by (destruct patient; auto; discriminate).
  rewrite (loadDetails_trace _ _ _ _ _ _ _ Hn).
  unfold all_fulfilled. rewrite H1, H2, H3, H4, H5.
  unfold photoColumn, summaryTab, detailsPanel, loginScreen in *.
  destruct st as [a p fm ph]; destruct a as [lr tok role], p, fm, ph.
  cbn in Hlogin |- *. rewrite Hlogin, Hp. reflexivity.
Qed.

Lemma photo_column_after_selection_witness :
  photoColumn (run logged_in
    (loadDetails logged_in jane (served jane_summary) (served (JArr [])) (served (JArr []))
       (served (JArr [])) (served (JArr [])))) = Some NoPhoto.
Proof.
  exact (photo_column_after_selection logged_in jane (served jane_summary) (served (JArr []))
           (served (JArr [])) (served (JArr [])) (served (JArr []))
           _ (JArr []) (JArr []) (JArr []) (JArr [])
           eq_refl eq_refl eq_refl eq_refl eq_refl eq_refl eq_refl).
Defined.

(** X18: the file input keeps the first file chosen; with a patient
    selected and the capability, the Upload Photo click that follows
    issues the upload of that file.  When the picker is left without a
    file the picked file is cleared and the click does nothing. *)
Theorem picked_file_is_uploaded
  (st : AppState) (f : File) (others : list File) (o1 o2 : FetchOutcome) :
  truthy (selectedPatient (pat st)) = true ->
  canEditClinical (staffRole (auth st)) = true ->
  (let picked := run st (photoInputChange (Some (f :: others))) in
   exists rest,
     fetches (trace (uploadPhotoClick picked o1 o2)) = upload_request st f :: rest)
  /\ trace (uploadPhotoClick (run st (photoInputChange (Some []))) o1 o2) = []
  /\ trace (uploadPhotoClick (run st (photoInputChange None)) o1 o2) = [].
Proof.
  intros Hsel Hrole. split; [| split].
  - cbv zeta.
    set (picked := run st (photoInputChange (Some (f :: others)))).
    assert (Hs : truthy (selectedPatient (pat picked)) = true) by exact Hsel.
    assert (Hr : canEditClinical (staffRole (auth picked)) = true) by exact Hrole.
    destruct (upload_is_first_request picked None f o1 o2 [] Hs Hr eq_refl) as (rest & H).
    exists rest. unfold uploadPhotoClick, async, bind, trace in *. cbn in *.
    rewrite app_nil_r in *. exact H.
  - unfold uploadPhotoClick, handlePhotoUpload. cbn.
    destruct (truthy (selectedPatient (pat st))); reflexivity.
  - unfold uploadPhotoClick, handlePhotoUpload. cbn.
    destruct (truthy (selectedPatient (pat st))); reflexivity.
Qed.

Lemma picked_file_is_uploaded_witness :
  exists rest,
    fetches (trace (uploadPhotoClick
                      (run jane_loaded (photoInputChange (Some [capture_file])))
                      unavailable unavailable))
    = upload_request jane_loaded capture_file :: rest.
Proof.
  exact (proj1 (picked_file_is_uploaded jane_loaded capture_file [] unavailable unavailable
                  eq_refl eq_refl)).
Defined.

(** * Further properties of the camera *)

Lemma live_more_stopped (st st' : CameraCapture.State) (s : CameraCapture.MediaStream)
  (extra : list nat) :
  CameraCapture.stopped st' = CameraCapture.stopped st ++ extra ->
  CameraCapture.live st s = false -> CameraCapture.live st' s = false.
Proof.
  unfold CameraCapture.live. intros -> H.
  induction (CameraCapture.getTracks s) as [| t ts IH]; [reflexivity |].
  cbn in *. apply orb_false_iff in H. destruct H as [Ht Hts].
  rewrite (IH Hts), orb_false_r. apply negb_false_iff in Ht.
  apply negb_false_iff. rewrite existsb_app, Ht. reflexivity.
Qed.

Lemma live_own_tracks_stopped (st : CameraCapture.State) (s : CameraCapture.MediaStream) :
  (forall t, In t (CameraCapture.getTracks s) -> In t (CameraCapture.stopped st)) ->
  CameraCapture.live st s = false.
Proof.
  unfold CameraCapture.live. intros H.
  induction (CameraCapture.getTracks s) as [| t ts IH]; [reflexivity |].
  cbn. rewrite IH by (intros t' Ht'; apply H; now right).
  rewrite orb_false_r. apply negb_false_iff. apply existsb_exists.
  exists t. split; [apply H; now left | apply Nat.eqb_refl].
Qed.

(** X19: unmounting the component, as the Close button and a capture
    do, stops every track of the stream it holds: that stream is no
    longer live. *)
Theorem unmount_releases_stream (st : CameraCapture.State) (s : CameraCapture.MediaStream) :
  CameraCapture.mounted st = true ->
  CameraCapture.streamRef st = Some s ->
  let st' := CameraCapture.step st CameraCapture.Unmount in
  CameraCapture.mounted st' = false
  /\ (forall t, In t (CameraCapture.getTracks s) -> In t (CameraCapture.stopped st'))
  /\ CameraCapture.live st' s = false
  /\ CameraCapture.log st'
     = CameraCapture.log st ++ map CameraCapture.TrackStop (CameraCapture.getTracks s).
Proof.
  intros Hm Hs. cbv zeta.
  assert (Hstopped : forall t, In t (CameraCapture.getTracks s) ->
            In t (CameraCapture.stopped (CameraCapture.step st CameraCapture.Unmount))).
  { intros t Ht. cbn. rewrite Hm. unfold CameraCapture.cleanup. rewrite Hs. cbn.
    apply in_or_app. now right. }
  split; [| split; [exact Hstopped | split]].
  - cbn. rewrite Hm. reflexivity.
  - apply live_own_tracks_stopped. exact Hstopped.
  - cbn. rewrite Hm. unfold CameraCapture.cleanup. rewrite Hs. reflexivity.
Qed.

Lemma unmount_releases_stream_witness :
  let st := CameraCapture.steps CameraCapture.initial
              [CameraCapture.Mount; CameraCapture.Settle 0 (inr front_stream)] in
  CameraCapture.live st front_stream = true
  /\ CameraCapture.live (CameraCapture.step st CameraCapture.Unmount) front_stream = false.
Proof.
  split; [reflexivity |].
  apply (unmount_releases_stream
           (CameraCapture.steps CameraCapture.initial
              [CameraCapture.Mount; CameraCapture.Settle 0 (inr front_stream)])
           front_stream); reflexivity.
Defined.

Lemma live_same_stopped (st st' : CameraCapture.State) (s : CameraCapture.MediaStream) :
  CameraCapture.stopped st' = CameraCapture.stopped st ->
  CameraCapture.live st' s = CameraCapture.live st s.
Proof. unfold CameraCapture.live. intros ->. reflexivity. Qed.

Lemma stream_eq_dec (a b : CameraCapture.MediaStream) : {a = b} + {a <> b}.
Proof. decide equality; [apply (list_eq_dec Nat.eq_dec) | apply Nat.eq_dec]. Qed.

Lemma step_keeps_one_stream (st : CameraCapture.State) (i : CameraCapture.Input) :
  one_stream_at_most st -> in_turn st i -> one_stream_at_most (CameraCapture.step st i).
Proof.
  intros Hinv Hturn. pose proof Hinv as (Hnd & Hdead & Hpend & Hun & Hreq).
  assert (Hall : CameraCapture.streamRef st = None ->
                 forall s, In s (CameraCapture.acquired st) -> CameraCapture.live st s = false).
  { intros Hnone s Hs. apply Hdead; [exact Hs | rewrite Hnone; discriminate]. }
  destruct st as [m fm err sr so pend req acq stp lg].
  set (st0 := CameraCapture.mkState m fm err sr so pend req acq stp lg) in *.
  cbn in Hnd, Hpend, Hreq, Hturn, Hall, Hun.
  destruct i as [| mode | r [reason | s] |]; cbn in Hturn.
  - (* Mount *)
    destruct (Hreq Hturn) as [Hp Hs]. subst pend sr req.
    destruct m; [exact Hinv |].
    unfold one_stream_at_most. cbn. split; [exact Hnd |]. split; [| split; [| split]].
    + intros s Hs _. rewrite <- (Hall eq_refl s Hs). now apply live_same_stopped.
    + right. exists 0%nat. auto.
    + discriminate.
    + discriminate.
  - (* SetFacingMode *)
    subst pend. cbn.
    destruct m; [| exact Hinv]. cbn.
    destruct (jsstring_eqb mode fm); [exact Hinv |]. cbn.
    unfold one_stream_at_most, CameraCapture.startCamera, CameraCapture.cleanup.
    destruct sr as [s0 |]; cbn.
    + split; [exact Hnd |]. split; [| split; [| split]].
      * intros s Hs _. destruct (stream_eq_dec s0 s) as [<- | Hne].
        -- apply live_own_tracks_stopped. cbn. intros t Ht.
           apply in_or_app. now right.
        -- apply (live_more_stopped st0 _ s
                    (CameraCapture.getTracks s0 ++ CameraCapture.getTracks s0)).
           ++ cbn. now rewrite app_assoc.
           ++ apply Hdead; [exact Hs | cbn; congruence].
      * right. exists req. auto.
      * discriminate.
      * discriminate.
    + split; [exact Hnd |]. split; [| split; [| split]].
      * intros s Hs _. rewrite <- (Hall eq_refl s Hs). now apply live_same_stopped.
      * right. exists req. auto.
      * discriminate.
      * discriminate.
  - (* Settle with an error *)
    unfold CameraCapture.step.
    destruct (CameraCapture.is_pending r st0) eqn:Hr; [| exact Hinv].
    destruct Hpend as [-> | (r' & -> & -> & ->)]; [discriminate |].
    unfold CameraCapture.is_pending in Hr. cbn in Hr. rewrite orb_false_r in Hr.
    apply Nat.eqb_eq in Hr. subst r'.
    unfold one_stream_at_most, CameraCapture.remove_request. cbn.
    rewrite Nat.eqb_refl. cbn.
    split; [exact Hnd |]. split; [| split; [| split]].
    + intros s Hs _. rewrite <- (Hall eq_refl s Hs). now apply live_same_stopped.
    + now left.
    + discriminate.
    + intros H. destruct (Hreq H) as [H' _]. discriminate.
  - (* Settle with a stream *)
    unfold CameraCapture.step.
    destruct (CameraCapture.is_pending r st0) eqn:Hr; [| exact Hinv].
    destruct Hpend as [-> | (r' & -> & -> & ->)]; [discriminate |].
    unfold CameraCapture.is_pending in Hr. cbn in Hr. rewrite orb_false_r in Hr.
    apply Nat.eqb_eq in Hr. subst r'.
    unfold one_stream_at_most, CameraCapture.remove_request. cbn.
    rewrite Nat.eqb_refl. cbn.
    split; [| split; [| split; [| split]]].
    + apply NoDup_app; [exact Hnd | repeat constructor; intros [] | ].
      intros x Hx [<- | []]. contradiction.
    + intros s' Hs' Hne. apply in_app_or in Hs'. destruct Hs' as [Hs' | [<- | []]].
      * rewrite <- (Hall eq_refl s' Hs'). now apply live_same_stopped.
      * congruence.
    + now left.
    + discriminate.
    + intros H. destruct (Hreq H) as [H' _]. discriminate.
  - (* Unmount *)
    subst pend. cbn. destruct m; [| exact Hinv].
    unfold one_stream_at_most, CameraCapture.cleanup.
    assert (Hgone : forall s, In s acq ->
              CameraCapture.live
                (match sr with
                 | Some s0 => CameraCapture.stopTracks s0 st0
                 | None => st0
                 end) s = false).
    { intros s Hs. destruct sr as [s0 |].
      - destruct (stream_eq_dec s0 s) as [<- | Hne].
        + apply live_own_tracks_stopped. cbn. intros t Ht. apply in_or_app. now right.
        + apply (live_more_stopped st0 _ s (CameraCapture.getTracks s0)); [reflexivity |].
          apply Hdead; [exact Hs | cbn; congruence].
      - apply (Hall eq_refl s Hs). }
    destruct sr as [s0 |]; cbn.
    + split; [exact Hnd |]. split; [| split; [| split]].
      * intros s Hs _. rewrite <- (Hgone s Hs). now apply live_same_stopped.
      * now left.
      * intros _ s Hs. rewrite <- (Hgone s Hs). now apply live_same_stopped.
      * intros H. destruct (Hreq H) as [_ H']. discriminate.
    + split; [exact Hnd |]. split; [| split; [| split]].
      * intros s Hs _. rewrite <- (Hgone s Hs). now apply live_same_stopped.
      * now left.
      * intros _ s Hs. rewrite <- (Hgone s Hs). now apply live_same_stopped.
      * auto.
Qed.

Lemma filter_none {A} (f : A -> bool) (l : list A) :
  (forall x, In x l -> f x = false) -> filter f l = [].
Proof.
  induction l as [| z l IH]; intros H; [reflexivity |].
  cbn. rewrite (H z) by now left. apply IH. intros x Hx. apply H. now right.
Qed.

Lemma filter_at_most_one {A} (eq_dec : forall x y : A, {x = y} + {x <> y})
  (f : A -> bool) (l : list A) (a : A) :
  NoDup l -> (forall x, In x l -> a <> x -> f x = false) ->
  filter f l = [] \/ filter f l = [a].
Proof.
  induction l as [| y l IH]; intros Hnd H; [now left |].
  inversion Hnd as [| ? ? Hy Hnd']; subst. cbn.
  destruct (f y) eqn:Hfy.
  - destruct (eq_dec a y) as [<- | Hne].
    + right. f_equal. apply filter_none.
      intros x Hx. apply H; [now right |]. intros <-. contradiction.
    + rewrite (H y) in Hfy; [discriminate | now left | exact Hne].
  - apply IH; [exact Hnd' |]. intros x Hx. apply H. now right.
Qed.

Lemma initial_one_stream : one_stream_at_most CameraCapture.initial.
Proof.
  unfold one_stream_at_most. cbn. split; [constructor |].
  split; [intros s [] |]. split; [now left |]. split; [intros _ s [] | auto].
Qed.

Lemma steps_keep_one_stream (inputs : list CameraCapture.Input) :
  forall st, one_stream_at_most st -> serial st inputs ->
             one_stream_at_most (CameraCapture.steps st inputs).
Proof.
  induction inputs as [| i rest IH]; intros st Hinv Hser; [exact Hinv |].
  destruct Hser as [Hturn Hrest]. cbn.
  apply IH; [apply step_keeps_one_stream; assumption | exact Hrest].
Qed.

(** X20: when the component is used without overlap (it is mounted
    once, the facing mode is switched and the component unmounted only
    while no acquisition is awaited), then at every moment at most one
    stream is live, and it is the one held in [streamRef]; once the
    component is unmounted no stream is live. *)
Theorem serial_use_holds_one_stream (inputs : list CameraCapture.Input) :
  serial CameraCapture.initial inputs ->
  let st := CameraCapture.steps CameraCapture.initial inputs in
  (CameraCapture.live_streams st = []
   \/ exists s, CameraCapture.streamRef st = Some s /\ CameraCapture.live_streams st = [s])
  /\ (CameraCapture.mounted st = false -> CameraCapture.live_streams st = []).
Proof.
  intros Hser st.
  destruct (steps_keep_one_stream inputs _ initial_one_stream Hser)
    as (Hnd & Hdead & _ & Hun & _).
  fold st in Hnd, Hdead, Hun. split.
  - destruct (CameraCapture.streamRef st) as [s |] eqn:Hs.
    + destruct (filter_at_most_one stream_eq_dec (CameraCapture.live st)
                  (CameraCapture.acquired st) s Hnd) as [H | H].
      * intros x Hx Hne. apply Hdead; [exact Hx | congruence].
      * now left.
      * right. exists s. auto.
    + left. apply filter_none. intros x Hx. apply Hdead; [exact Hx | discriminate].
  - intros Hm. apply filter_none. exact (Hun Hm).
Qed.

Lemma serial_use_holds_one_stream_witness :
  serial CameraCapture.initial front_then_back
  /\ CameraCapture.live_streams (CameraCapture.steps CameraCapture.initial front_then_back)
     = [].
Proof.
  assert (Hser : serial CameraCapture.initial front_then_back).
  { cbn. repeat split.
    - intros [].
    - intros [E | []]. discriminate. }
  split; [exact Hser |].
  apply (serial_use_holds_one_stream front_then_back Hser). reflexivity.
Defined.

(** After the component is unmounted nothing stops a track any more,
    whatever happens short of a new mount. *)
Lemma unmounted_stops_nothing (inputs : list CameraCapture.Input) :
  forall st,
    CameraCapture.mounted st = false ->
    Forall (fun i => i <> CameraCapture.Mount) inputs ->
    CameraCapture.mounted (CameraCapture.steps st inputs) = false
    /\ CameraCapture.stopped (CameraCapture.steps st inputs) = CameraCapture.stopped st
    /\ (forall s, In s (CameraCapture.acquired st) ->
          In s (CameraCapture.acquired (CameraCapture.steps st inputs))).
Proof.
  induction inputs as [| i rest IH]; intros st Hm Hall; [auto |].
  inversion Hall as [| ? ? Hi Hrest]; subst.
  assert (Hstep : CameraCapture.mounted (CameraCapture.step st i) = false
                  /\ CameraCapture.stopped (CameraCapture.step st i)
                     = CameraCapture.stopped st
                  /\ (forall s, In s (CameraCapture.acquired st) ->
                        In s (CameraCapture.acquired (CameraCapture.step st i)))).
  { destruct st as [m fm err sr so pend req acq stp lg]. cbn in Hm. subst m.
    destruct i as [| mode | r [reason | s] |]; [congruence | | | |];
      unfold CameraCapture.step; cbn [CameraCapture.mounted negb orb];
      try (destruct (CameraCapture.is_pending r _)); cbn; auto.
    split; [reflexivity |]. split; [reflexivity |].
    intros s' Hs'. apply in_or_app. now left. }
  destruct Hstep as (Hm' & Hst' & Hacq').
  destruct (IH (CameraCapture.step st i) Hm' Hrest) as (H1 & H2 & H3).
  change (CameraCapture.steps st (i :: rest))
    with (CameraCapture.steps (CameraCapture.step st i) rest).
  split; [exact H1 |]. split; [congruence | auto].
Qed.

(** X21: a stream that [getUserMedia] delivers after the component has
    been unmounted is stored in [streamRef] and never stopped: if one
    of its tracks is running it stays live whatever happens to this
    component afterwards. *)
Theorem stream_after_unmount_stays_live
  (st : CameraCapture.State) (r : nat) (s : CameraCapture.MediaStream)
  (inputs : list CameraCapture.Input) :
  CameraCapture.mounted st = false ->
  CameraCapture.is_pending r st = true ->
  CameraCapture.live st s = true ->
  Forall (fun i => i <> CameraCapture.Mount) inputs ->
  let st' := CameraCapture.step st (CameraCapture.Settle r (inr s)) in
  CameraCapture.streamRef st' = Some s
  /\ CameraCapture.log st' = CameraCapture.log st
  /\ In s (CameraCapture.live_streams (CameraCapture.steps st' inputs)).
Proof.
  intros Hm Hr Hlive Hall st'.
  assert (Hst' : CameraCapture.streamRef st' = Some s
                 /\ CameraCapture.log st' = CameraCapture.log st
                 /\ CameraCapture.mounted st' = false
                 /\ CameraCapture.stopped st' = CameraCapture.stopped st
                 /\ In s (CameraCapture.acquired st')).
  { subst st'. unfold CameraCapture.step. rewrite Hr.
    destruct st as [m fm err sr so pend req acq stp lg]. cbn in Hm. subst m. cbn.
    repeat split; auto. apply in_or_app. right. now left. }
  destruct Hst' as (Hs & Hl & Hm' & Hstop & Hacq).
  split; [exact Hs |]. split; [exact Hl |].
  destruct (unmounted_stops_nothing inputs st' Hm' Hall) as (_ & Hstop' & Hacq').
  unfold CameraCapture.live_streams. apply filter_In. split; [auto |].
  rewrite (live_same_stopped st _ s); [exact Hlive | congruence].
Qed.

Lemma stream_after_unmount_stays_live_witness :
  In front_stream
    (CameraCapture.live_streams
       (CameraCapture.steps CameraCapture.initial
          [CameraCapture.Mount; CameraCapture.Unmount;
           CameraCapture.Settle 0 (inr front_stream);
           CameraCapture.SetFacingMode (lit "environment"); CameraCapture.Unmount])).
Proof.
  apply (stream_after_unmount_stays_live
           (CameraCapture.steps CameraCapture.initial
              [CameraCapture.Mount; CameraCapture.Unmount])
           0 front_stream
           [CameraCapture.SetFacingMode (lit "environment"); CameraCapture.Unmount]);
    try reflexivity.
  repeat constructor; discriminate.
Defined.

(** * Further properties of the capture *)

(** X22: a capture without a mounted video element, or whose encoding
    yields no blob, hands nothing to [onCapture]; a captured file holds
    one image whose two dimensions are at least 1, on which the current
    frame was drawn once, from the origin and over the whole canvas. *)
Theorem capture_edges (video : Video) (encoded : bool) :
  handleCaptureClick None encoded = None
  /\ handleCaptureClick (Some video) false = None
  /\ forall file, handleCaptureClick (Some video) encoded = Some file ->
       encoded = true
       /\ exists c type quality,
            file_parts file = [CanvasBlob c type quality]
            /\ 0 < canvas_width c /\ 0 < canvas_height c
            /\ canvas_drawn c
               = [mkDrawn (currentFrame video) 0 0 (canvas_width c) (canvas_height c)].
Proof.
  split; [reflexivity |]. split; [reflexivity |].
  intros file H. destruct encoded; [| discriminate]. split; [reflexivity |].
  unfold handleCaptureClick, toBlob in H. cbn in H. injection H as <-.
  eexists _, _, _. split; [reflexivity |]. cbn. unfold or_default.
  split; [| split; [| reflexivity]].
  - destruct (N.eqb_spec (videoWidth video) 0) as [_ | Hne];
      [reflexivity | now apply N.neq_0_lt_0].
  - destruct (N.eqb_spec (videoHeight video) 0) as [_ | Hne];
      [reflexivity | now apply N.neq_0_lt_0].
Qed.

Lemma capture_edges_witness :
  exists c type quality,
    file_parts capture_file = [CanvasBlob c type quality]
    /\ 0 < canvas_width c /\ 0 < canvas_height c
    /\ canvas_drawn c = [mkDrawn 0 0 0 (canvas_width c) (canvas_height c)].
Proof.
  destruct (capture_edges (mkVideo 1280 720 0) true) as (_ & _ & H).
  exact (proj2 (H capture_file eq_refl)).
Defined.

(** X23: with a patient selected and the capability, the file a capture
    produces is what the photo upload sends, as the field [file] of a
    multipart POST to the photo of the selected patient; whatever the
    outcome of the upload, the camera is closed afterwards and the file
    picked from disk, if any, is left as it was. *)
Theorem capture_is_uploaded (st : AppState) (video : Video) (o1 o2 : FetchOutcome) :
  truthy (selectedPatient (pat st)) = true ->
  canEditClinical (staffRole (auth st)) = true ->
  exists file rest,
    handleCaptureClick (Some video) true = Some file
    /\ fetches (trace (cameraOnCapture st file o1 o2))
       = mkRequest POST (PatientUrl (member (selectedPatient (pat st)) patient_id) RPhoto)
           [] (FormBody [(lit "file", file)]) :: rest
    /\ image_size file = Some (or_default (videoWidth video) 640,
                               or_default (videoHeight video) 480)
    /\ showCamera (photo (run st (cameraOnCapture st file o1 o2))) = false
    /\ photoFile (photo (run st (cameraOnCapture st file o1 o2))) = photoFile (photo st).
Proof.
  intros Hsel Hrole.
  assert (Hcap : exists file,
            handleCaptureClick (Some video) true = Some file
            /\ image_size file = Some (or_default (videoWidth video) 640,
                                       or_default (videoHeight video) 480))
    by (eexists; split; reflexivity).
  destruct Hcap as (file & Hfile & Hsize).
  assert (Htrace : trace (cameraOnCapture st file o1 o2)
                   = trace (handlePhotoUpload st (Some file) o1 o2)
                     ++ [Call (setShowCamera false)]).
  { unfold cameraOnCapture, async, bind, trace. cbn. reflexivity. }
  destruct (upload_is_first_request st (Some file) file o1 o2 [Call (setShowCamera false)]
              Hsel Hrole eq_refl) as (rest & Hrest).
  exists file, rest. split; [exact Hfile |]. rewrite Htrace.
  split; [exact Hrest |]. split; [exact Hsize |].
  unfold run. rewrite Htrace.
  rewrite (handlePhotoUpload_trace st (Some file) file o1 o2 Hsel Hrole eq_refl).
  destruct st as [a p fm ph]; destruct a, p, fm, ph.
  destruct (fulfilled o1); destruct (fulfilled o2); split; reflexivity.
Qed.

Lemma capture_is_uploaded_witness :
  exists file rest,
    handleCaptureClick (Some (mkVideo 1280 720 0)) true = Some file
    /\ fetches (trace (cameraOnCapture summary_tab_with_file file unavailable unavailable))
       = mkRequest POST (PatientUrl (JNum 1) RPhoto) [] (FormBody [(lit "file", file)]) :: rest
    /\ image_size file = Some (1280, 720)
    /\ showCamera (photo (run summary_tab_with_file
                            (cameraOnCapture summary_tab_with_file file
                               unavailable unavailable))) = false
    /\ photoFile (photo (run summary_tab_with_file
                           (cameraOnCapture summary_tab_with_file file
                              unavailable unavailable)))
       = photoFile (photo summary_tab_with_file).
Proof.
  exact (capture_is_uploaded summary_tab_with_file (mkVideo 1280 720 0)
           unavailable unavailable eq_refl eq_refl).
Defined.
